(** * NS3 WiFi control loop: a shallow embedding of [wifi_analysis_and_control.py]

    The script is the Python half of an ns3-ai co-simulation.  Each iteration
    of its [while True] loop takes one measurement struct from shared memory,
    updates a per-timestamp window of downlink samples, derives the transmit
    power [set_ApTx] from the mean of the last closed window, appends a row to
    [data_store] and writes [set_ApTx] back.  A [try / except / else / finally]
    around the loop exports [data_store] to [toy_data.csv].

    Python floats are IEEE-754 binary64 values, so they are modelled by Rocq's
    primitive floats; comparisons are the IEEE ones ([nan] compares false with
    everything, [0.0] equals [-0.0]). *)

From Stdlib Require Import ZArith List Bool String Floats Lia Permutation.
Import ListNotations.

(* A decimal literal such as [0.01] denotes the nearest binary64 value, as
   it does in Python. *)
Set Warnings "-inexact-float".

Local Open Scope float_scope.

(** ** Python primitives on floats *)

Module Py.

(** [a != b] on floats. *)
Definition ne (a b : float) : bool := negb (a =? b).

(** [min(a, b)]: the builtin keeps its first argument unless the second
    compares strictly smaller. *)
Definition min (a b : float) : float := if b <? a then b else a.

(** [max(a, b)]: the builtin keeps its first argument unless the second
    compares strictly greater. *)
Definition max (a b : float) : float := if a <? b then b else a.

(** [sum(l)]: starts from the integer [0] and adds the items from left to
    right; with float items every partial sum is a float.  (CPython 3.12
    and later add a compensation term to the float loop; the two agree
    whenever the plain partial sums are exact.) *)
Definition sum (l : list float) : float := fold_left PrimFloat.add l 0.

(** [len(l)] converted to a float, as [/] does with an [int] operand.  A
    list length always fits in 63 bits. *)
Definition len (l : list float) : float :=
  PrimFloat.of_uint63 (Uint63.of_Z (Z.of_nat (List.length l))).

(** [sum(l) / len(l)], used by the script on non-empty lists only. *)
Definition mean (l : list float) : float := sum l / len l.

(** [bool(l)] for a list: true iff it has an element. *)
Definition truthy {A : Type} (l : list A) : bool :=
  match l with [] => false | _ :: _ => true end.

End Py.

(** ** Data *)

(** The measurement struct the simulator publishes for one tick, as returned
    by [msgInterface.GetCpp2PyStruct()]; the fields are the ones the script
    reads, in the order it reads them. *)
Record Cpp2PyStruct : Type := mkCpp2Py {
  pos_x : float;
  pos_y : float;
  distance : float;
  dl_tp : float;
  ul_tp : float;
  get_ApTx : float;
  sta_id : Z;
  now_sec : float
}.

(** Values stored in a [data_point]. *)
Inductive PyVal : Type :=
| PyFloat (f : float)
| PyInt (z : Z).

(** A Python [dict] with string keys.  Dicts keep insertion order, and the
    order is what decides the CSV columns, so a dict is the list of its
    items. *)
Definition Dict : Type := list (string * PyVal).

Fixpoint dict_get (k : string) (d : Dict) : option PyVal :=
  match d with
  | [] => None
  | (k', v) :: d' => if String.eqb k k' then Some v else dict_get k d'
  end.

(** [pd.DataFrame(list_of_dicts)]: a table with named columns.  The script
    only ever passes dicts built by the same literal, so the columns are the
    keys of the first dict in insertion order; a cell is the dict's value
    under the column's name (missing when the dict has no such key). *)
Record DataFrame : Type := mkFrame {
  columns : list string;
  rows : list (list (option PyVal))
}.

Definition pd_DataFrame (ds : list Dict) : DataFrame :=
  let cols := match ds with [] => [] | d :: _ => map fst d end in
  {| columns := cols;
     rows := map (fun d => map (fun k => dict_get k d) cols) ds |}.

(** Exceptions the loop can meet.  [PyException] stands for any instance of
    [Exception] raised by a binding call (the spec's ChannelError);
    [KeyboardInterrupt] and [SystemExit] derive from [BaseException] only. *)
Inductive PyExn : Type :=
| PyException
| KeyboardInterrupt
| SystemExit (code : Z).

(** [isinstance(e, Exception)], the test of [except Exception as e]. *)
Definition is_Exception (e : PyExn) : bool :=
  match e with PyException => true | _ => false end.

(** What the run does to the outside world, in order: the calls on
    [msgInterface], the one [print] that reports a closed window, the CSV
    exports and the release of the experiment. *)
Inductive Event : Type :=
| EvPyRecvBegin
| EvPyGetFinished (finished : bool)
| EvGetCpp2PyStruct (w : Cpp2PyStruct)
| EvPyRecvEnd
| EvPrintMeanDL (at_sec mean : float)
| EvPySendBegin
| EvSetApTx (v : float)
| EvPySendEnd
| EvToCsv (df : DataFrame)
| EvDelExp.

(** The module-level variables of the script that the loop mutates. *)
Record Globals : Type := mkGlobals {
  data_store : list Dict;
  prev_now_sec : float;
  current_dl_values : list float;
  prev_mean_dl : option float
}.

(** Lines 83-86. *)
Definition initial_globals : Globals :=
  {| data_store := [];
     prev_now_sec := -1.0;
     current_dl_values := [];
     prev_mean_dl := None |}.

Record Machine : Type := mkMachine {
  vars : Globals;
  log : list Event
}.

Definition initial_machine : Machine :=
  {| vars := initial_globals; log := [] |}.

(** ** The data-processing part of an iteration (lines 143-192) *)

(** Lines 146-157: window boundary detection, mean of the closed window,
    reset, and accumulation of the current sample.  The second component is
    the output of the [print] inside [if current_dl_values:]. *)
Definition window_update (now dl : float) (g : Globals) : Globals * list Event :=
  let '(g1, out) :=
    if Py.ne now (prev_now_sec g) then
      let '(mean, out) :=
        if Py.truthy (current_dl_values g) then
          let m := Py.mean (current_dl_values g) in
          (Some m, [EvPrintMeanDL (prev_now_sec g) m])
        else (prev_mean_dl g, []) in
      ({| data_store := data_store g;
          prev_now_sec := now;
          current_dl_values := [];
          prev_mean_dl := mean |}, out)
    else (g, []) in
  ({| data_store := data_store g1;
      prev_now_sec := prev_now_sec g1;
      current_dl_values := current_dl_values g1 ++ [dl];
      prev_mean_dl := prev_mean_dl g1 |}, out).

(** Lines 143 and 160-164: the default, overwritten by the clamped linear
    rule once a window mean is known. *)
Definition adaptive_ApTx (mean : option float) : float :=
  match mean with
  | None => 20.0
  | Some m => Py.max 1.0 (Py.min 30.0 (30.0 - 30.0 * m / 100.0))
  end.

(** Lines 181-191: the dict literal, keys in source order. *)
Definition data_point (w : Cpp2PyStruct) (set_ApTx : float) : Dict :=
  [ ("pos_x", PyFloat (pos_x w));
    ("pos_y", PyFloat (pos_y w));
    ("distance", PyFloat (distance w));
    ("dl_tp", PyFloat (dl_tp w));
    ("ul_tp", PyFloat (ul_tp w));
    ("get_ApTx", PyFloat (get_ApTx w));
    ("sta_id", PyInt (sta_id w));
    ("now_sec", PyFloat (now_sec w));
    ("set_ApTx", PyFloat set_ApTx) ]%string.

Record Processed : Type := mkProcessed {
  p_vars : Globals;
  p_out : list Event;
  p_set_ApTx : float
}.

(** Everything between [PyRecvEnd()] and [PySendBegin()].  Nothing in
    this part can raise: the only divisions are by the length of a
    non-empty list and by [100.0], and float arithmetic overflows to an
    infinity instead of raising. *)
Definition process (w : Cpp2PyStruct) (g : Globals) : Processed :=
  let '(g1, out) := window_update (now_sec w) (dl_tp w) g in
  let set_ApTx := adaptive_ApTx (prev_mean_dl g1) in
  {| p_vars := {| data_store := data_store g1 ++ [data_point w set_ApTx];
                  prev_now_sec := prev_now_sec g1;
                  current_dl_values := current_dl_values g1;
                  prev_mean_dl := prev_mean_dl g1 |};
     p_out := out;
     p_set_ApTx := set_ApTx |}.

(** ** Statements: state, log and exceptions *)

Inductive Result (A : Type) : Type :=
| Ok (a : A)
| Exc (e : PyExn).
Arguments Ok {A} a.
Arguments Exc {A} e.

(** A statement runs on the machine and either yields a value or raises. *)
Definition Stmt (A : Type) : Type := Machine -> Result A * Machine.

Definition ret {A : Type} (a : A) : Stmt A := fun m => (Ok a, m).

Definition bind {A B : Type} (c : Stmt A) (k : A -> Stmt B) : Stmt B :=
  fun m =>
    match c m with
    | (Ok a, m') => k a m'
    | (Exc e, m') => (Exc e, m')
    end.

Declare Scope stmt_scope.
Delimit Scope stmt_scope with stmt.
Notation "x <- c ;; k" := (bind c (fun x => k))
  (at level 61, c at next level, right associativity) : stmt_scope.
Notation "c ;; k" := (bind c (fun _ => k))
  (at level 61, right associativity) : stmt_scope.

Definition emit (evs : list Event) : Stmt unit :=
  fun m => (Ok tt, {| vars := vars m; log := log m ++ evs |}).

(** ** The channel as the loop sees it *)

(** The calls on [msgInterface] inside the loop body. *)
Inductive CallSite : Type :=
| At_PyRecvBegin
| At_PyGetFinished
| At_GetCpp2PyStruct
| At_PyRecvEnd
| At_PySendBegin
| At_GetPy2CppStruct
| At_PySendEnd.

Definition CallSite_eqb (a b : CallSite) : bool :=
  match a, b with
  | At_PyRecvBegin, At_PyRecvBegin
  | At_PyGetFinished, At_PyGetFinished
  | At_GetCpp2PyStruct, At_GetCpp2PyStruct
  | At_PyRecvEnd, At_PyRecvEnd
  | At_PySendBegin, At_PySendBegin
  | At_GetPy2CppStruct, At_GetPy2CppStruct
  | At_PySendEnd, At_PySendEnd => true
  | _, _ => false
  end.

(** What the simulator side does during one iteration: it has either
    published a struct or set the finished flag ([published = None]), and
    one of the calls may raise. *)
Record Handshake : Type := mkHandshake {
  published : option Cpp2PyStruct;
  fault : option (CallSite * PyExn)
}.

(** A call on the interface: it raises if the handshake says so, and
    otherwise happens and is logged. *)
Definition call (h : Handshake) (c : CallSite) (ev : Event) : Stmt unit :=
  fun m =>
    match fault h with
    | Some (c', e) =>
        if CallSite_eqb c c' then (Exc e, m) else emit [ev] m
    | None => emit [ev] m
    end.

Definition PyGetFinished (h : Handshake) : bool :=
  match published h with None => true | Some _ => false end.

(** Lines 143-192 as a statement: updates the globals, logs the window
    report, yields [set_ApTx]. *)
Definition process_stmt (w : Cpp2PyStruct) : Stmt float :=
  fun m =>
    let p := process w (vars m) in
    (Ok (p_set_ApTx p), {| vars := p_vars p; log := log m ++ p_out p |}).

Local Open Scope stmt_scope.

(** One pass through the body of [while True] (lines 91-202).  The result
    is [false] after [break] and [true] when the body ran to its end. *)
Definition iteration (h : Handshake) : Stmt bool :=
  call h At_PyRecvBegin EvPyRecvBegin ;;
  (* print("... status:", msgInterface.PyGetFinished()) *)
  call h At_PyGetFinished (EvPyGetFinished (PyGetFinished h)) ;;
  (* if msgInterface.PyGetFinished(): break *)
  call h At_PyGetFinished (EvPyGetFinished (PyGetFinished h)) ;;
  match published h with
  | None => ret false
  | Some w =>
      call h At_GetCpp2PyStruct (EvGetCpp2PyStruct w) ;;
      call h At_PyRecvEnd EvPyRecvEnd ;;
      set_ApTx <- process_stmt w ;;
      call h At_PySendBegin EvPySendBegin ;;
      call h At_GetPy2CppStruct (EvSetApTx set_ApTx) ;;
      call h At_PySendEnd EvPySendEnd ;;
      ret true
  end.

(** ** Runs *)

(** How a run ends: the simulator sets the finished flag, or one call of one
    more iteration (whose struct is [w]) raises [e]. *)
Inductive Ending : Type :=
| Finish
| Fault (c : CallSite) (e : PyExn) (w : Cpp2PyStruct).

(** The simulator's side of a whole run: the structs of the iterations that
    complete, then the ending. *)
Record Script : Type := mkScript {
  ticks : list Cpp2PyStruct;
  ending : Ending
}.

Definition tick_handshake (w : Cpp2PyStruct) : Handshake :=
  {| published := Some w; fault := None |}.

Definition last_handshake (e : Ending) : Handshake :=
  match e with
  | Finish => {| published := None; fault := None |}
  | Fault c e w => {| published := Some w; fault := Some (c, e) |}
  end.

(** The [while True] loop against a script.  The last handshake always
    leaves the body by [break] or by an exception ([last_iteration_leaves]),
    so nothing follows it. *)
Fixpoint loop (ws : list Cpp2PyStruct) (e : Ending) : Stmt unit :=
  match ws with
  | w :: ws' =>
      continue <- iteration (tick_handshake w) ;;
      if continue then loop ws' e else ret tt
  | [] =>
      iteration (last_handshake e) ;; ret tt
  end.

(** [if data_store: df = pd.DataFrame(data_store); df.to_csv(csv_path, index=False)],
    which appears in the handler (lines 218-222) and in [finally]
    (lines 248-250). *)
Definition export_csv : Stmt unit :=
  fun m =>
    if Py.truthy (data_store (vars m))
    then emit [EvToCsv (pd_DataFrame (data_store (vars m)))] m
    else (Ok tt, m).

(** The [finally] block (lines 237-264). *)
Definition finally_block : Stmt unit :=
  export_csv ;; emit [EvDelExp].

(** The [except Exception] handler (lines 205-224); [exit(1)] raises
    [SystemExit(1)]. *)
Definition except_handler : Stmt unit :=
  export_csv ;; (fun m => (Exc (SystemExit 1), m)).

(** How the process ends. *)
Inductive ExitStatus : Type :=
| ExitCode (code : Z)
| Uncaught (e : PyExn).

(** The status the operating system reports for [SystemExit(code)] with
    an integer code (CPython on a 64-bit POSIX system): the interpreter
    converts the code to a C [long], a code that does not fit becoming -1,
    and the process status is the low eight bits of the result. *)
Definition process_status (code : Z) : Z :=
  if ((- 2 ^ 63 <=? code) && (code <? 2 ^ 63))%Z
  then (code mod 256)%Z
  else 255%Z.

Definition exit_status (r : Result unit) : ExitStatus :=
  match r with
  | Ok _ => ExitCode 0
  | Exc (SystemExit code) => ExitCode (process_status code)
  | Exc e => Uncaught e
  end.

(** [try: <loop> except Exception: <handler> else: ... finally: <finally>].
    The [finally] block runs last on every path, also when the handler
    itself raises, and the pending exception then continues. *)
Definition try_loop (s : Script) : Stmt unit :=
  fun m =>
    let '(r, m1) := loop (ticks s) (ending s) m in
    let '(r', m2) :=
      match r with
      | Exc e => if is_Exception e then except_handler m1 else (Exc e, m1)
      | Ok _ => (Ok tt, m1)
      end in
    let '(_, m3) := finally_block m2 in
    (r', m3).

Definition main (s : Script) : ExitStatus * Machine :=
  let '(r, m) := try_loop s initial_machine in (exit_status r, m).

Local Close Scope stmt_scope.

(** ** Observations on logs and stores *)

(** The means reported by [print(f"python: Mean DL @ ...")], i.e. one entry
    per window that closed with a mean. *)
Definition closed_means (l : list Event) : list float :=
  flat_map (fun ev => match ev with EvPrintMeanDL _ m => [m] | _ => [] end) l.

(** The values assigned to [GetPy2CppStruct().set_ApTx]. *)
Definition written (l : list Event) : list float :=
  flat_map (fun ev => match ev with EvSetApTx v => [v] | _ => [] end) l.

(** The frames passed to [to_csv]. *)
Definition csv_exports (l : list Event) : list DataFrame :=
  flat_map (fun ev => match ev with EvToCsv df => [df] | _ => [] end) l.

(** The [set_ApTx] entry of every stored row. *)
Definition recorded (ds : list Dict) : list (option PyVal) :=
  map (dict_get "set_ApTx") ds.

Definition is_PyRecvEnd (ev : Event) : bool :=
  match ev with EvPyRecvEnd => true | _ => false end.

(** Events of the write phase. *)
Definition is_send_phase (ev : Event) : bool :=
  match ev with
  | EvPySendBegin | EvSetApTx _ | EvPySendEnd => true
  | _ => false
  end.

(** ** The loop, unfolded

    A completed iteration has a fixed shape, so a run is a fold of [process]
    over the ticks followed by the last, incomplete iteration. *)

Definition tick_events (w : Cpp2PyStruct) (p : Processed) : list Event :=
  [EvPyRecvBegin; EvPyGetFinished false; EvPyGetFinished false;
   EvGetCpp2PyStruct w; EvPyRecvEnd]
  ++ p_out p
  ++ [EvPySendBegin; EvSetApTx (p_set_ApTx p); EvPySendEnd].

Definition after_tick (w : Cpp2PyStruct) (m : Machine) : Machine :=
  let p := process w (vars m) in
  {| vars := p_vars p; log := log m ++ tick_events w p |}.

Fixpoint run_ticks (ws : list Cpp2PyStruct) (m : Machine) : Machine :=
  match ws with
  | [] => m
  | w :: ws' => run_ticks ws' (after_tick w m)
  end.

Definition finish_events : list Event :=
  [EvPyRecvBegin; EvPyGetFinished true; EvPyGetFinished true].

(** Whether the call site lies after the data-processing part. *)
Definition after_process (c : CallSite) : bool :=
  match c with
  | At_PySendBegin | At_GetPy2CppStruct | At_PySendEnd => true
  | _ => false
  end.

(** The events of an iteration up to the call that raises. *)
Definition fault_events (c : CallSite) (w : Cpp2PyStruct) (p : Processed) : list Event :=
  match c with
  | At_PyRecvBegin => []
  | At_PyGetFinished => [EvPyRecvBegin]
  | At_GetCpp2PyStruct =>
      [EvPyRecvBegin; EvPyGetFinished false; EvPyGetFinished false]
  | At_PyRecvEnd =>
      [EvPyRecvBegin; EvPyGetFinished false; EvPyGetFinished false;
       EvGetCpp2PyStruct w]
  | At_PySendBegin =>
      [EvPyRecvBegin; EvPyGetFinished false; EvPyGetFinished false;
       EvGetCpp2PyStruct w; EvPyRecvEnd] ++ p_out p
  | At_GetPy2CppStruct =>
      [EvPyRecvBegin; EvPyGetFinished false; EvPyGetFinished false;
       EvGetCpp2PyStruct w; EvPyRecvEnd] ++ p_out p ++ [EvPySendBegin]
  | At_PySendEnd =>
      [EvPyRecvBegin; EvPyGetFinished false; EvPyGetFinished false;
       EvGetCpp2PyStruct w; EvPyRecvEnd] ++ p_out p
      ++ [EvPySendBegin; EvSetApTx (p_set_ApTx p)]
  end.

Definition after_fault (c : CallSite) (w : Cpp2PyStruct) (m : Machine) : Machine :=
  let p := process w (vars m) in
  {| vars := if after_process c then p_vars p else vars m;
     log := log m ++ fault_events c w p |}.

(** The machine when the loop is left. *)
Definition at_exit (s : Script) : Machine :=
  let m := run_ticks (ticks s) initial_machine in
  match ending s with
  | Finish => {| vars := vars m; log := log m ++ finish_events |}
  | Fault c _ w => after_fault c w m
  end.

(** The events of [export_csv] for a given store. *)
Definition export_events (ds : list Dict) : list Event :=
  if Py.truthy ds then [EvToCsv (pd_DataFrame ds)] else [].

(** The events after the loop: the handler's export when an [Exception] was
    caught, then the [finally] block. *)
Definition closing_events (s : Script) (ds : list Dict) : list Event :=
  match ending s with
  | Finish => export_events ds ++ [EvDelExp]
  | Fault _ e _ =>
      if is_Exception e
      then export_events ds ++ export_events ds ++ [EvDelExp]
      else export_events ds ++ [EvDelExp]
  end.

Definition exit_of (s : Script) : ExitStatus :=
  match ending s with
  | Finish => ExitCode 0
  | Fault _ e _ =>
      if is_Exception e then ExitCode 1 else exit_status (@Exc unit e)
  end.


(** The rows a run appends to [data_store], as pairs of the struct read and
    the directive computed for it. *)
Fixpoint rows_of (ws : list Cpp2PyStruct) (g : Globals) : list (Cpp2PyStruct * float) :=
  match ws with
  | [] => []
  | w :: ws' =>
      let p := process w g in
      (w, p_set_ApTx p) :: rows_of ws' (p_vars p)
  end.

(** Everything the loop of script [s] collects before it is left: one row
    per completed iteration, and one more when the last iteration raised
    after its row had been appended. *)
Definition collected (s : Script) : list (Cpp2PyStruct * float) :=
  let m := run_ticks (ticks s) initial_machine in
  rows_of (ticks s) initial_globals
  ++ match ending s with
     | Finish => []
     | Fault c _ w =>
         if after_process c then [(w, p_set_ApTx (process w (vars m)))] else []
     end.

Definition row_dict (r : Cpp2PyStruct * float) : Dict :=
  data_point (fst r) (snd r).

Definition is_PyRecvBegin (ev : Event) : bool :=
  match ev with EvPyRecvBegin => true | _ => false end.

(** The part of a log that starts at its last [PyRecvBegin()]: the last
    iteration of the loop and whatever follows it. *)
Fixpoint last_iteration (l : list Event) : list Event :=
  match l with
  | [] => []
  | ev :: l' =>
      match last_iteration l' with
      | [] => if is_PyRecvBegin ev then ev :: l' else []
      | r => r
      end
  end.

(** Whether processing [w] in state [g] closes a window with a mean: the
    timestamp changed and the window has samples. *)
Definition closes_window (w : Cpp2PyStruct) (g : Globals) : bool :=
  Py.ne (now_sec w) (prev_now_sec g) && Py.truthy (current_dl_values g).

(** The means reported by a fold of [process]. *)
Fixpoint window_means (ws : list Cpp2PyStruct) (g : Globals) : list float :=
  match ws with
  | [] => []
  | w :: ws' =>
      closed_means (p_out (process w g)) ++ window_means ws' (p_vars (process w g))
  end.

(** The value of [prev_mean_dl] after each step of a fold of [process]. *)
Fixpoint stored_means (ws : list Cpp2PyStruct) (g : Globals) : list (option float) :=
  match ws with
  | [] => []
  | w :: ws' =>
      prev_mean_dl (p_vars (process w g)) :: stored_means ws' (p_vars (process w g))
  end.

(** ** Devices for the proofs *)

(** Lexicographic comparison of (exponent, mantissa), as [SFcompare] does
    for two finite values of the same sign. *)
Definition lexcmp (e1 : Z) (m1 : positive) (e2 : Z) (m2 : positive) : comparison :=
  match Z.compare e1 e2 with
  | Lt => Lt
  | Gt => Gt
  | Eq => Pos.compare_cont Eq m1 m2
  end.

Definition not_gt (c : comparison) : bool :=
  match c with Gt => false | _ => true end.

Definition not_lt (c : comparison) : bool :=
  match c with Lt => false | _ => true end.

(** A float that is not [nan]: it equals itself. *)
Definition is_number (x : float) : Prop := (x =? x) = true.

(** ** The spec's vocabulary *)

(** [clamp] into [[lo, hi]]: values below [lo] become [lo], values above
    [hi] become [hi], the others are kept. *)
Definition clamp (lo hi x : float) : float :=
  if x <? lo then lo else if hi <? x then hi else x.

Definition in_range (lo hi x : float) : Prop :=
  (lo <=? x) = true /\ (x <=? hi) = true.

(** The unclamped directive [30.0 - 30.0 * m / 100.0]. *)
Definition raw_directive (m : float) : float := 30.0 - 30.0 * m / 100.0.

(** Timestamps that never decrease from one record to the next. *)
Fixpoint non_decreasing (ts : list float) : Prop :=
  match ts with
  | a :: (b :: _) as tl => (a <=? b) = true /\ non_decreasing tl
  | _ => True
  end.

(** The downlink samples of the records of [ws] whose timestamp equals
    [t]. *)
Definition samples_at (t : float) (ws : list Cpp2PyStruct) : list float :=
  map dl_tp (filter (fun w => now_sec w =? t) ws).

(** The sum of the first [n] samples, taken in order: the sum of the first
    [n - 1] of them plus the [n]-th. *)
Fixpoint sum_upto (l : list float) (n : nat) : float :=
  match n with
  | O => 0
  | S k => sum_upto l k + nth k l 0
  end.

(** A number of samples as a float (exact below 2^53). *)
Definition sample_count (n : nat) : float :=
  PrimFloat.of_uint63 (Uint63.of_Z (Z.of_nat n)).

(** The arithmetic mean of the samples: their sum divided by their
    number. *)
Definition arithmetic_mean (l : list float) : float :=
  sum_upto l (List.length l) / sample_count (List.length l).

(** One mean per place where the timestamp changes between two consecutive
    records of [rs]: the arithmetic mean of all samples of [all] that carry
    the timestamp before the change. *)
Fixpoint transition_means (all rs : list Cpp2PyStruct) : list float :=
  match rs with
  | a :: (b :: _) as tl =>
      if now_sec b =? now_sec a
      then transition_means all tl
      else arithmetic_mean (samples_at (now_sec a) all) :: transition_means all tl
  | _ => []
  end.

(** The mean known after each record of [rs] but the first: where the
    timestamp changed from the record before, the arithmetic mean of all
    samples of [all] that carry the earlier timestamp; elsewhere the mean
    known before, unchanged. *)
Fixpoint known_means (all : list Cpp2PyStruct) (known : option float)
         (rs : list Cpp2PyStruct) : list (option float) :=
  match rs with
  | a :: (b :: _) as tl =>
      let known' :=
        if now_sec b =? now_sec a
        then known
        else Some (arithmetic_mean (samples_at (now_sec a) all)) in
      known' :: known_means all known' tl
  | _ => []
  end.

(** The mean known after every record of a run: none after the first
    record, then as [known_means] says. *)
Definition mean_history (ws : list Cpp2PyStruct) : list (option float) :=
  match ws with
  | [] => []
  | _ :: _ => None :: known_means ws None ws
  end.

(** The column names of [toy_data.csv], in file order. *)
Definition csv_columns : list string :=
  ["pos_x"; "pos_y"; "distance"; "dl_tp"; "ul_tp"; "get_ApTx"; "sta_id";
   "now_sec"; "set_ApTx"]%string.

(** The order the interface description lists the columns in, with the
    script's own names: station id first. *)
Definition listed_columns : list string :=
  ["sta_id"; "pos_x"; "pos_y"; "distance"; "dl_tp"; "ul_tp"; "get_ApTx";
   "now_sec"; "set_ApTx"]%string.

(** The cells of the CSV row of one record, in file order. *)
Definition csv_row (r : Cpp2PyStruct * float) : list (option PyVal) :=
  let w := fst r in
  [ Some (PyFloat (pos_x w)); Some (PyFloat (pos_y w));
    Some (PyFloat (distance w)); Some (PyFloat (dl_tp w));
    Some (PyFloat (ul_tp w)); Some (PyFloat (get_ApTx w));
    Some (PyInt (sta_id w)); Some (PyFloat (now_sec w));
    Some (PyFloat (snd r)) ].

(** How many times a run writes the CSV file. *)
Definition exports_of (s : Script) : nat :=
  match collected s with
  | [] => 0
  | _ :: _ =>
      match ending s with
      | Finish => 1
      | Fault _ e _ => if is_Exception e then 2 else 1
      end
  end.

(** ** Scenarios *)

(** A struct with timestamp [t] and downlink sample [dl]; the fields the
    control rule does not look at are those of [o]. *)
Definition tick_at (o : Cpp2PyStruct) (t dl : float) : Cpp2PyStruct :=
  {| pos_x := pos_x o; pos_y := pos_y o; distance := distance o;
     dl_tp := dl; ul_tp := ul_tp o; get_ApTx := get_ApTx o;
     sta_id := sta_id o; now_sec := t |}.

Definition station0 : Cpp2PyStruct :=
  {| pos_x := 0; pos_y := 0; distance := 0; dl_tp := 0; ul_tp := 0;
     get_ApTx := 20; sta_id := 0; now_sec := 0 |}.

(** Scenario A: three records at timestamp 1.0, then the finish signal. *)
Definition scenario_A (o1 o2 o3 : Cpp2PyStruct) : Script :=
  {| ticks := [tick_at o1 1.0 10.0; tick_at o2 1.0 20.0; tick_at o3 1.0 30.0];
     ending := Finish |}.

(** Scenario B: scenario A with one record at timestamp 2.0 before the
    finish signal. *)
Definition scenario_B (o1 o2 o3 o4 : Cpp2PyStruct) : Script :=
  {| ticks := [tick_at o1 1.0 10.0; tick_at o2 1.0 20.0; tick_at o3 1.0 30.0;
               tick_at o4 2.0 50.0];
     ending := Finish |}.

(** A channel error on the second read, after one completed iteration. *)
Definition scenario_error : Script :=
  {| ticks := [tick_at station0 1.0 10.0];
     ending := Fault At_PyRecvBegin PyException station0 |}.

(** A timestamp that goes back: 1.0, 2.0, then 1.0 again. *)
Definition scenario_regress : Script :=
  {| ticks := [tick_at station0 1.0 10.0; tick_at station0 2.0 50.0;
               tick_at station0 1.0 0.0];
     ending := Finish |}.

(** ** Further vocabulary: the handshake, frames by column, the state after a run *)

(** The globals after a fold of [process], without the log. *)
Fixpoint globals_after (ws : list Cpp2PyStruct) (g : Globals) : Globals :=
  match ws with
  | [] => g
  | w :: ws' => globals_after ws' (p_vars (process w g))
  end.

(** The structs whose row is in the store when the loop of [s] is left. *)
Definition stored_ticks (s : Script) : list Cpp2PyStruct :=
  ticks s
  ++ match ending s with
     | Finish => []
     | Fault c _ w => if after_process c then [w] else []
     end.

(** The phases of the message interface as the ns3-ai handshake defines
    them: a read phase between [PyRecvBegin()] and [PyRecvEnd()], then a
    write phase between [PySendBegin()] and [PySendEnd()]. *)
Inductive Phase : Type :=
| AwaitRead
| Reading
| AwaitWrite
| Writing.

(** The phase after an event, or [None] when the event is not allowed in
    the phase: the struct and the finished flag are read in the read phase
    only, [set_ApTx] is assigned in the write phase only, and the begin and
    end calls alternate.  Printing, exporting and releasing the experiment
    do not touch the interface. *)
Definition phase_step (p : Phase) (ev : Event) : option Phase :=
  match ev, p with
  | EvPyRecvBegin, AwaitRead => Some Reading
  | EvPyGetFinished _, Reading => Some Reading
  | EvGetCpp2PyStruct _, Reading => Some Reading
  | EvPyRecvEnd, Reading => Some AwaitWrite
  | EvPySendBegin, AwaitWrite => Some Writing
  | EvSetApTx _, Writing => Some Writing
  | EvPySendEnd, Writing => Some AwaitRead
  | EvPrintMeanDL _ _, _ => Some p
  | EvToCsv _, _ => Some p
  | EvDelExp, _ => Some p
  | _, _ => None
  end.

Fixpoint phase_run (p : Phase) (l : list Event) : option Phase :=
  match l with
  | [] => Some p
  | ev :: l' =>
      match phase_step p ev with
      | Some p' => phase_run p' l'
      | None => None
      end
  end.

(** The phase in which each ending leaves the interface. *)
Definition phase_at_end (e : Ending) : Phase :=
  match e with
  | Finish => Reading
  | Fault At_PyRecvBegin _ _ => AwaitRead
  | Fault At_PyGetFinished _ _ => Reading
  | Fault At_GetCpp2PyStruct _ _ => Reading
  | Fault At_PyRecvEnd _ _ => Reading
  | Fault At_PySendBegin _ _ => AwaitWrite
  | Fault At_GetPy2CppStruct _ _ => Writing
  | Fault At_PySendEnd _ _ => Writing
  end.

Definition is_DelExp (ev : Event) : bool :=
  match ev with EvDelExp => true | _ => false end.

(** Events that are calls on [msgInterface]. *)
Definition is_interface_call (ev : Event) : bool :=
  match ev with
  | EvPyRecvBegin | EvPyGetFinished _ | EvGetCpp2PyStruct _ | EvPyRecvEnd
  | EvPySendBegin | EvSetApTx _ | EvPySendEnd => true
  | _ => false
  end.

(** The position of a column name in a header. *)
Fixpoint column_index (c : string) (cols : list string) : option nat :=
  match cols with
  | [] => None
  | c' :: cols' =>
      if String.eqb c c' then Some 0%nat
      else option_map S (column_index c cols')
  end.

(** [df[c]] for a column name [c]: the cells of the column from top to
    bottom, or nothing ([KeyError]) when the frame has no such column. *)
Definition df_getitem (df : DataFrame) (c : string) : option (list (option PyVal)) :=
  match column_index c (columns df) with
  | None => None
  | Some i => Some (map (fun row => nth i row None) (rows df))
  end.

(** ** The animation script: which rows each frame shows

    [wifi_network_visualization.py] reads [toy_data.csv] back into a frame
    [df] and draws one animation frame per distinct timestamp.  A row of
    [df] has the nine columns of the export, so it is a struct together
    with the directive. *)

Module Viz.

Definition CsvRow : Type := (Cpp2PyStruct * float)%type.

(** [row["now_sec"]]. *)
Definition row_time (r : CsvRow) : float := now_sec (fst r).

(** When [Series.unique()] takes two float keys for the same one: they are
    [==], or both are [nan]. *)
Definition same_key (a b : float) : bool :=
  (a =? b) || (negb (a =? a) && negb (b =? b)).

(** [Series.unique()]: the distinct values in order of first appearance;
    [seen] holds the keys met so far. *)
Fixpoint unique_from (seen l : list float) : list float :=
  match l with
  | [] => []
  | x :: l' =>
      if existsb (same_key x) seen
      then unique_from seen l'
      else x :: unique_from (x :: seen) l'
  end.

Definition unique (l : list float) : list float := unique_from [] l.

(** Line 163: [frames = len(df["now_sec"].unique())]. *)
Definition frames (df : list CsvRow) : nat :=
  List.length (unique (map row_time df)).

(** Line 106: [df["now_sec"].unique()[frame]]; nothing when the index is
    out of bounds ([IndexError]). *)
Definition current_time (df : list CsvRow) (frame : nat) : option float :=
  nth_error (unique (map row_time df)) frame.

(** Line 107: [df[df["now_sec"] == current_time]], the rows whose
    timestamp compares [==] to the frame's, in file order. *)
Definition current_data (df : list CsvRow) (t : float) : list CsvRow :=
  filter (fun r => row_time r =? t) df.

(** The rows shown by [update(frame)]. *)
Definition frame_rows (df : list CsvRow) (frame : nat) : option (list CsvRow) :=
  option_map (current_data df) (current_time df frame).

(** Whether some key of [keys] selects the row. *)
Definition selected_by (keys : list float) (r : CsvRow) : bool :=
  existsb (fun t => row_time r =? t) keys.

End Viz.

(** ** The animation script: [init] and [update] *)

Module Anim.

(** A text artist made by [ax.text(x, y, s, ...)]; [text_id] stands for
    the identity of the Python object. *)
Record Text : Type := mkText {
  text_id : nat;
  text_x : float;
  text_y : float;
  text_str : string
}.

(** What [init] and [update] read and change: the offsets of the scatter
    plot [scat], the string of [time_text], the module-level lists
    [annotations] and [sta_texts], and the artists made by [ax.text] that
    are attached to the axes ([time_text] itself is never removed and is
    left out).  [created] counts the artists made so far. *)
Record Plot : Type := mkPlot {
  scat_offsets : list (float * float);
  time_text : string;
  annotations : list Text;
  sta_texts : list Text;
  on_axes : list Text;
  created : nat
}.

(** Lines 85-93: nothing drawn yet. *)
Definition initial_plot : Plot :=
  {| scat_offsets := []; time_text := ""; annotations := []; sta_texts := [];
     on_axes := []; created := 0 |}.

Definition set_scat_offsets (o : list (float * float)) (p : Plot) : Plot :=
  {| scat_offsets := o; time_text := time_text p; annotations := annotations p;
     sta_texts := sta_texts p; on_axes := on_axes p; created := created p |}.

Definition set_time_text (s : string) (p : Plot) : Plot :=
  {| scat_offsets := scat_offsets p; time_text := s; annotations := annotations p;
     sta_texts := sta_texts p; on_axes := on_axes p; created := created p |}.

Definition set_annotations (l : list Text) (p : Plot) : Plot :=
  {| scat_offsets := scat_offsets p; time_text := time_text p; annotations := l;
     sta_texts := sta_texts p; on_axes := on_axes p; created := created p |}.

Definition set_sta_texts (l : list Text) (p : Plot) : Plot :=
  {| scat_offsets := scat_offsets p; time_text := time_text p;
     annotations := annotations p; sta_texts := l; on_axes := on_axes p;
     created := created p |}.

Definition set_on_axes (l : list Text) (p : Plot) : Plot :=
  {| scat_offsets := scat_offsets p; time_text := time_text p;
     annotations := annotations p; sta_texts := sta_texts p; on_axes := l;
     created := created p |}.

(** What can go wrong: an index past the end of [unique()], and
    [remove()] on an artist that is not attached (matplotlib raises
    "cannot remove artist"). *)
Inductive Error : Type :=
| IndexError
| CannotRemove.

Definition same_artist (t u : Text) : bool := Nat.eqb (text_id u) (text_id t).

(** [t.remove()]. *)
Definition remove (t : Text) (p : Plot) : Error + Plot :=
  if existsb (same_artist t) (on_axes p)
  then inr (set_on_axes (filter (fun u => negb (same_artist t u)) (on_axes p)) p)
  else inl CannotRemove.

(** [for t in ts: t.remove()]. *)
Fixpoint remove_each (ts : list Text) (p : Plot) : Error + Plot :=
  match ts with
  | [] => inr p
  | t :: ts' =>
      match remove t p with
      | inl e => inl e
      | inr p' => remove_each ts' p'
      end
  end.

(** [ax.text(x, y, s, ...)]: a new artist, attached to the axes. *)
Definition ax_text (x y : float) (s : string) (p : Plot) : Text * Plot :=
  let t := {| text_id := created p; text_x := x; text_y := y; text_str := s |} in
  (t, {| scat_offsets := scat_offsets p; time_text := time_text p;
         annotations := annotations p; sta_texts := sta_texts p;
         on_axes := on_axes p ++ [t]; created := S (created p) |}).


Section Rendering.

(** The strings Python builds: [str(int(row["sta_id"]))] (line 126), the
    f-string of line 137, and the f-string of lines 153-156 over the pandas
    mean and sums of the frame's rows.  Only where they go matters here. *)
Variable sta_label : Viz.CsvRow -> string.
Variable info_text : Viz.CsvRow -> string.
Variable status_text : list Viz.CsvRow -> float -> string.

(** Lines 122-133: a label at each station's position. *)
Fixpoint add_sta_texts (rows : list Viz.CsvRow) (p : Plot) : Plot :=
  match rows with
  | [] => p
  | r :: rows' =>
      let '(txt, p1) := ax_text (pos_x (fst r)) (pos_y (fst r)) (sta_label r) p in
      add_sta_texts rows' (set_sta_texts (sta_texts p1 ++ [txt]) p1)
  end.

(** Lines 136-147: an information box up and to the right of each
    station. *)
Fixpoint add_annotations (rows : list Viz.CsvRow) (p : Plot) : Plot :=
  match rows with
  | [] => p
  | r :: rows' =>
      let '(ann, p1) :=
        ax_text (pos_x (fst r) + 0.01) (pos_y (fst r) + 0.01) (info_text r) p in
      add_annotations rows' (set_annotations (annotations p1 ++ [ann]) p1)
  end.

(** Lines 96-102.  (The tuple of artists it returns is used for blitting
    only, which is off.) *)
Definition init (p : Plot) : Error + Plot :=
  let p1 := set_time_text "" (set_scat_offsets [] p) in
  match remove_each (sta_texts p1) p1 with
  | inl e => inl e
  | inr p2 => inr (set_sta_texts [] p2)
  end.

(** Lines 105-159. *)
Definition update (df : list Viz.CsvRow) (frame : nat) (p : Plot) : Error + Plot :=
  match Viz.current_time df frame with
  | None => inl IndexError
  | Some current_time =>
      let current_data := Viz.current_data df current_time in
      let p1 :=
        set_scat_offsets
          (map (fun r => (pos_x (fst r), pos_y (fst r))) current_data) p in
      match remove_each (annotations p1) p1 with
      | inl e => inl e
      | inr p2 =>
          let p3 := set_annotations [] p2 in
          match remove_each (sta_texts p3) p3 with
          | inl e => inl e
          | inr p4 =>
              let p5 := set_sta_texts [] p4 in
              let p6 := add_sta_texts current_data p5 in
              let p7 := add_annotations current_data p6 in
              inr (set_time_text (status_text current_data current_time) p7)
          end
      end
  end.


End Rendering.


(** The artists on the axes are the two lists, labels first, and no artist
    is there twice. *)
Definition tidy (p : Plot) : Prop :=
  on_axes p = sta_texts p ++ annotations p
  /\ NoDup (map text_id (on_axes p)).

(** Where an artist is and what it says. *)
Definition shown (t : Text) : float * float * string :=
  (text_x t, text_y t, text_str t).

(** The artists of [l] that are none of [ts]. *)
Definition without (ts l : list Text) : list Text :=
  filter (fun u => negb (existsb (fun t => same_artist t u) ts)) l.

End Anim.
(** ** Order facts on IEEE comparisons

  Everything the proofs need about [<?], [<=?] and [=?] is derived from the
  specification [SFcompare] of the primitive comparison. *)

Module FloatOrder.

Lemma SFcompare_swap (x y : spec_float) (c : comparison) :
  SFcompare x y = Some c -> SFcompare y x = Some (CompOpp c).
Proof.
  destruct x as [sx|sx| |sx mx ex], y as [sy|sy| |sy my ey]; simpl;
    try discriminate;
    try (destruct sx; intros [= <-]; reflexivity);
    try (destruct sy; intros [= <-]; reflexivity);
    try (destruct sx, sy; intros [= <-]; reflexivity).
  destruct sx, sy; intros [= <-]; try reflexivity;
    rewrite (Z.compare_antisym ex ey);
    destruct (Z.compare_spec ex ey) as [->|Hlt|Hgt]; simpl; try reflexivity;
    change (PosDef.Pos.compare_cont Eq my mx) with (Pos.compare my mx);
    change (PosDef.Pos.compare_cont Eq mx my) with (Pos.compare mx my);
    rewrite (Pos.compare_antisym mx my);
    destruct (Pos.compare mx my); reflexivity.
Qed.

Lemma lexcmp_le_iff e1 m1 e2 m2 :
  not_gt (lexcmp e1 m1 e2 m2) = true <->
  (e1 < e2 \/ (e1 = e2 /\ (m1 <= m2)%positive))%Z.
Proof.
  unfold lexcmp.
  destruct (Z.compare_spec e1 e2) as [->|H|H]; simpl.
  - change (Pos.compare_cont Eq m1 m2) with (Pos.compare m1 m2).
    destruct (Pos.compare_spec m1 m2) as [->|Hm|Hm]; simpl; split; intros; try lia.
  - split; intros; [lia|reflexivity].
  - split; intros; [discriminate|lia].
Qed.

Lemma lexcmp_ge_iff e1 m1 e2 m2 :
  not_lt (lexcmp e1 m1 e2 m2) = true <->
  (e2 < e1 \/ (e1 = e2 /\ (m2 <= m1)%positive))%Z.
Proof.
  unfold lexcmp.
  destruct (Z.compare_spec e1 e2) as [->|H|H]; simpl.
  - change (Pos.compare_cont Eq m1 m2) with (Pos.compare m1 m2).
    destruct (Pos.compare_spec m1 m2) as [->|Hm|Hm]; simpl; split; intros; try lia.
  - split; intros; [discriminate|lia].
  - split; intros; [lia|reflexivity].
Qed.

Lemma SFleb_finite_pos m1 e1 m2 e2 :
  SFleb (S754_finite false m1 e1) (S754_finite false m2 e2)
  = not_gt (lexcmp e1 m1 e2 m2).
Proof.
  unfold SFleb, lexcmp; simpl.
  destruct (Z.compare e1 e2); try reflexivity;
    destruct (Pos.compare_cont Eq m1 m2); reflexivity.
Qed.

Lemma SFleb_finite_neg m1 e1 m2 e2 :
  SFleb (S754_finite true m1 e1) (S754_finite true m2 e2)
  = not_lt (lexcmp e1 m1 e2 m2).
Proof.
  unfold SFleb, lexcmp; simpl.
  destruct (Z.compare e1 e2); try reflexivity;
    destruct (Pos.compare_cont Eq m1 m2); reflexivity.
Qed.

Lemma SFleb_trans (x y z : spec_float) :
  SFleb x y = true -> SFleb y z = true -> SFleb x z = true.
Proof.
  destruct x as [sx|sx| |sx mx ex], y as [sy|sy| |sy my ey],
           z as [sz|sz| |sz mz ez];
    try (unfold SFleb; simpl; discriminate);
    try (unfold SFleb; simpl; repeat match goal with b : bool |- _ => destruct b end;
         simpl; congruence).
  destruct sx, sy, sz; try (unfold SFleb; simpl; congruence).
  - rewrite !SFleb_finite_neg, !lexcmp_ge_iff. lia.
  - rewrite !SFleb_finite_pos, !lexcmp_le_iff. lia.
Qed.

Lemma SFleb_antisym (x y : spec_float) :
  SFleb x y = true -> SFleb y x = true -> SFeqb x y = true.
Proof.
  unfold SFleb, SFeqb.
  destruct (SFcompare x y) as [c|] eqn:E; [|discriminate].
  rewrite (SFcompare_swap _ _ _ E).
  destruct c; simpl; congruence.
Qed.

Lemma SFeqb_leb (x y : spec_float) :
  SFeqb x y = true -> SFleb x y = true /\ SFleb y x = true.
Proof.
  unfold SFleb, SFeqb.
  destruct (SFcompare x y) as [c|] eqn:E; [|discriminate].
  rewrite (SFcompare_swap _ _ _ E).
  destruct c; simpl; try discriminate. auto.
Qed.

Lemma SFltb_leb (x y : spec_float) :
  SFltb x y = true -> SFleb x y = true.
Proof.
  unfold SFltb, SFleb. destruct (SFcompare x y) as [[]|]; congruence.
Qed.

Lemma SFltb_not_leb (x y : spec_float) :
  SFltb x y = true -> SFleb y x = false.
Proof.
  unfold SFltb, SFleb.
  destruct (SFcompare x y) as [c|] eqn:E; [|discriminate].
  rewrite (SFcompare_swap _ _ _ E). destruct c; simpl; congruence.
Qed.

Lemma SFleb_total (x y : spec_float) :
  SFeqb x x = true -> SFeqb y y = true ->
  SFltb x y = false -> SFleb y x = true.
Proof.
  unfold SFltb, SFleb, SFeqb.
  destruct (SFcompare x y) as [c|] eqn:E.
  - rewrite (SFcompare_swap _ _ _ E). destruct c; simpl; congruence.
  - destruct x, y; simpl in *; congruence.
Qed.

(** The same facts on primitive floats. *)

Lemma leb_trans (x y z : float) :
  (x <=? y) = true -> (y <=? z) = true -> (x <=? z) = true.
Proof. rewrite !leb_spec. apply SFleb_trans. Qed.

Lemma leb_antisym (x y : float) :
  (x <=? y) = true -> (y <=? x) = true -> (x =? y) = true.
Proof. rewrite !leb_spec, eqb_spec. apply SFleb_antisym. Qed.

Lemma eqb_leb (x y : float) :
  (x =? y) = true -> (x <=? y) = true /\ (y <=? x) = true.
Proof. rewrite !leb_spec, eqb_spec. apply SFeqb_leb. Qed.

Lemma ltb_leb (x y : float) : (x <? y) = true -> (x <=? y) = true.
Proof. rewrite ltb_spec, leb_spec. apply SFltb_leb. Qed.

Lemma ltb_not_leb (x y : float) : (x <? y) = true -> (y <=? x) = false.
Proof. rewrite ltb_spec, leb_spec. apply SFltb_not_leb. Qed.

Lemma leb_total (x y : float) :
  (x =? x) = true -> (y =? y) = true -> (x <? y) = false -> (y <=? x) = true.
Proof. rewrite !eqb_spec, ltb_spec, leb_spec. apply SFleb_total. Qed.

Lemma eqb_sym (x y : float) : (x =? y) = (y =? x).
Proof.
  rewrite !eqb_spec. unfold SFeqb.
  destruct (SFcompare (Prim2SF x) (Prim2SF y)) as [c|] eqn:E.
  - rewrite (SFcompare_swap _ _ _ E). destruct c; reflexivity.
  - destruct (SFcompare (Prim2SF y) (Prim2SF x)) as [c|] eqn:E'; [|reflexivity].
    apply SFcompare_swap in E'. congruence.
Qed.

Lemma eqb_trans (x y z : float) :
  (x =? y) = true -> (y =? z) = true -> (x =? z) = true.
Proof.
  intros Hxy Hyz.
  destruct (eqb_leb _ _ Hxy) as [A B], (eqb_leb _ _ Hyz) as [C D].
  apply leb_antisym; eapply leb_trans; eassumption.
Qed.

Lemma SFeqb_refl_finite s m e :
  SFeqb (S754_finite s m e) (S754_finite s m e) = true.
Proof.
  unfold SFeqb; simpl.
  change (PosDef.Pos.compare_cont Eq m m) with (Pos.compare m m).
  destruct s; rewrite Z.compare_refl, Pos.compare_refl; reflexivity.
Qed.

(** Anything that compares [<=?] with something is a number, i.e. equal to
    itself. *)
Lemma leb_refl_l (x y : float) : (x <=? y) = true -> (x =? x) = true.
Proof.
  rewrite leb_spec, eqb_spec. intros H.
  destruct (Prim2SF x) as [s|s| |s m e] eqn:Ex.
  - reflexivity.
  - destruct s; reflexivity.
  - unfold SFleb in H; simpl in H; discriminate H.
  - apply SFeqb_refl_finite.
Qed.

Lemma leb_refl_r (x y : float) : (x <=? y) = true -> (y =? y) = true.
Proof.
  rewrite leb_spec, eqb_spec. intros H.
  destruct (Prim2SF y) as [s|s| |s m e] eqn:Ey.
  - reflexivity.
  - destruct s; reflexivity.
  - destruct (Prim2SF x); unfold SFleb in H; simpl in H; discriminate H.
  - apply SFeqb_refl_finite.
Qed.

(** Between two equal bounds everything is equal: the step that makes the
    records of one timestamp contiguous in a non-decreasing sequence. *)
Lemma eqb_squeeze (x y z : float) :
  (x <=? y) = true -> (y <=? z) = true -> (x =? z) = true -> (x =? y) = true.
Proof.
  intros Hxy Hyz Hxz.
  destruct (eqb_leb _ _ Hxz) as [_ Hzx].
  apply leb_antisym; [assumption|].
  eapply leb_trans; eassumption.
Qed.

(** [<=?] without [<?] is [=?]. *)
Lemma leb_not_ltb (x y : float) :
  (x <=? y) = true -> (x <? y) = false -> (x =? y) = true.
Proof.
  rewrite leb_spec, ltb_spec, eqb_spec. unfold SFleb, SFltb, SFeqb.
  destruct (SFcompare (Prim2SF x) (Prim2SF y)) as [[]|]; congruence.
Qed.

Lemma ltb_not_eqb (x y : float) : (x <? y) = true -> (x =? y) = false.
Proof.
  rewrite ltb_spec, eqb_spec. unfold SFltb, SFeqb.
  destruct (SFcompare (Prim2SF x) (Prim2SF y)) as [[]|]; congruence.
Qed.

Lemma ltb_asym (x y : float) : (x <? y) = true -> (y <? x) = false.
Proof.
  intros H. destruct (y <? x) eqn:E; [|reflexivity].
  apply ltb_leb in E. rewrite (ltb_not_leb _ _ H) in E. discriminate E.
Qed.

(** A float that compares equal to a finite non-zero value is that value:
    only the two zeros are equal without being identical. *)
Lemma eqb_finite_eq (x c : float) (s : bool) (m : positive) (e : Z) :
  Prim2SF c = S754_finite s m e -> (x =? c) = true -> x = c.
Proof.
  intros Hc. rewrite eqb_spec, Hc. intros H.
  apply Prim2SF_inj. rewrite Hc.
  unfold SFeqb in H.
  destruct (Prim2SF x) as [sx|sx| |sx mx ex]; simpl in H;
    try discriminate H;
    try (destruct sx; discriminate H);
    try (destruct s; discriminate H).
  change (PosDef.Pos.compare_cont Eq mx m) with (Pos.compare mx m) in H.
  destruct sx, s; try discriminate H;
    destruct (Z.compare_spec ex e); try discriminate H;
    destruct (Pos.compare_spec mx m); try discriminate H;
    subst; reflexivity.
Qed.

End FloatOrder.


(** ** Arithmetic never invents a [nan] from finite operands

    The rounding step of the specification returns [nan] only for a negative
    mantissa, which multiplication, division and subtraction never pass. *)

Module FloatArith.

Section Rounding.

Variables prec emax : Z.

Lemma iter_pos_invariant {A : Type} (P : A -> Prop) (f : A -> A) :
  (forall x, P x -> P (f x)) ->
  forall (p : positive) (x : A), P x -> P (iter_pos f p x).
Proof.
  intros Hf. induction p as [p IH|p IH|]; intros x Hx; simpl; auto.
Qed.

Lemma shr_1_nonneg (mrs : shr_record) :
  (0 <= shr_m mrs)%Z -> (0 <= shr_m (shr_1 mrs))%Z.
Proof.
  destruct mrs as [m r s]; simpl.
  destruct m as [|[p|p|]|p]; simpl; lia.
Qed.

Lemma shr_nonneg (mrs : shr_record) (e n : Z) :
  (0 <= shr_m mrs)%Z -> (0 <= shr_m (fst (shr mrs e n)))%Z.
Proof.
  intros H. unfold shr. destruct n as [|p|p]; simpl; auto.
  apply (iter_pos_invariant (fun x => (0 <= shr_m x)%Z)); auto using shr_1_nonneg.
Qed.

Lemma shr_record_of_loc_m (m : Z) (l : location) :
  shr_m (shr_record_of_loc m l) = m.
Proof. destruct l as [|[]]; reflexivity. Qed.

Lemma shr_fexp_nonneg (m e : Z) (l : location) :
  (0 <= m)%Z -> (0 <= shr_m (fst (shr_fexp prec emax m e l)))%Z.
Proof.
  intros H. unfold shr_fexp. apply shr_nonneg.
  rewrite shr_record_of_loc_m. exact H.
Qed.

Lemma round_nearest_even_nonneg (m : Z) (l : location) :
  (0 <= m)%Z -> (0 <= round_nearest_even m l)%Z.
Proof.
  intros H. unfold round_nearest_even.
  destruct l as [|[]]; try destruct (Z.even m); lia.
Qed.

Lemma binary_round_aux_number (sx : bool) (mx ex : Z) (lx : location) :
  (0 <= mx)%Z -> binary_round_aux prec emax sx mx ex lx <> S754_nan.
Proof.
  intros H. unfold binary_round_aux.
  pose proof (shr_fexp_nonneg mx ex lx H) as H1.
  destruct (shr_fexp prec emax mx ex lx) as [mrs' e']. simpl in H1.
  pose proof (shr_fexp_nonneg _ e' loc_Exact
                (round_nearest_even_nonneg _ (loc_of_shr_record mrs') H1)) as H2.
  destruct (shr_fexp prec emax _ e' loc_Exact) as [mrs'' e'']. simpl in H2.
  destruct (shr_m mrs'') as [|p|p]; try discriminate; try lia.
  destruct (Z.leb e'' (emax - prec)); discriminate.
Qed.

Lemma binary_normalize_number (m e : Z) (szero : bool) :
  binary_normalize prec emax m e szero <> S754_nan.
Proof.
  unfold binary_normalize, binary_round.
  destruct m as [|p|p]; try discriminate;
    destruct (shl_align _ _ _) as [mz ez];
    apply binary_round_aux_number; lia.
Qed.

Lemma SFmul_finite_l (s : bool) (m : positive) (e : Z) (y : spec_float) :
  y <> S754_nan -> SFmul prec emax (S754_finite s m e) y <> S754_nan.
Proof.
  intros Hy. destruct y as [sy|sy| |sy my ey]; simpl; try discriminate;
    try congruence.
  apply binary_round_aux_number. lia.
Qed.

Lemma SFdiv_core_quotient_nonneg (m1 : positive) (e1 : Z) (m2 : positive) (e2 : Z) :
  (0 <= fst (fst (SFdiv_core_binary prec emax (Zpos m1) e1 (Zpos m2) e2)))%Z.
Proof.
  unfold SFdiv_core_binary.
  set (s := (e1 - e2 - _)%Z).
  set (m' := match s with Zpos _ => Z.shiftl (Zpos m1) s | Z0 => Zpos m1 | Zneg _ => 0%Z end).
  assert (Hm' : (0 <= m')%Z).
  { unfold m'. destruct s; try lia. apply Z.shiftl_nonneg. lia. }
  pose proof (Z_div_mod m' (Zpos m2) eq_refl) as Hd.
  destruct (Z.div_eucl m' (Zpos m2)) as [q r]. simpl.
  destruct Hd as [Heq Hr]. nia.
Qed.

Lemma SFdiv_finite_r (x : spec_float) (s : bool) (m : positive) (e : Z) :
  x <> S754_nan -> SFdiv prec emax x (S754_finite s m e) <> S754_nan.
Proof.
  intros Hx. destruct x as [sx|sx| |sx mx ex]; simpl; try discriminate;
    try congruence.
  pose proof (SFdiv_core_quotient_nonneg mx ex m e) as Hq.
  destruct (SFdiv_core_binary prec emax (Zpos mx) ex (Zpos m) e) as [[mz ez] lz].
  apply binary_round_aux_number. exact Hq.
Qed.

Lemma SFsub_finite_l (s : bool) (m : positive) (e : Z) (y : spec_float) :
  y <> S754_nan -> SFsub prec emax (S754_finite s m e) y <> S754_nan.
Proof.
  intros Hy. destruct y as [sy|sy| |sy my ey]; simpl; try discriminate;
    try congruence.
  apply binary_normalize_number.
Qed.

End Rounding.

Lemma is_number_spec (x : float) : is_number x <-> Prim2SF x <> S754_nan.
Proof.
  unfold is_number. rewrite eqb_spec. split.
  - intros H E. rewrite E in H. discriminate H.
  - intros H. destruct (Prim2SF x) as [s|s| |s m e]; try congruence.
    + reflexivity.
    + destruct s; reflexivity.
    + apply FloatOrder.SFeqb_refl_finite.
Qed.

(** [30.0 - 30.0 * m / 100.0] is a number whenever [m] is. *)
Lemma raw_directive_number (m : float) :
  is_number m -> is_number (raw_directive m).
Proof.
  rewrite !is_number_spec. intros Hm. unfold raw_directive.
  rewrite sub_spec, div_spec, mul_spec.
  change (Prim2SF 30) with (S754_finite false 8444249301319680 (-48)).
  change (Prim2SF 100) with (S754_finite false 7036874417766400 (-46)).
  apply SFsub_finite_l, SFdiv_finite_r, SFmul_finite_l, Hm.
Qed.

End FloatArith.

(** ** The loop is a fold of completed iterations and one last handshake *)

Lemma iteration_tick (w : Cpp2PyStruct) (m : Machine) :
  iteration (tick_handshake w) m = (Ok true, after_tick w m).
Proof.
  unfold iteration, after_tick, tick_events, bind, call, emit, process_stmt, ret.
  simpl. rewrite <- !app_assoc. reflexivity.
Qed.

Lemma iteration_finish (m : Machine) :
  iteration (last_handshake Finish) m
  = (Ok false, {| vars := vars m; log := log m ++ finish_events |}).
Proof.
  unfold iteration, finish_events, bind, call, emit, ret.
  simpl. rewrite <- !app_assoc. reflexivity.
Qed.

Lemma iteration_fault (c : CallSite) (e : PyExn) (w : Cpp2PyStruct) (m : Machine) :
  iteration (last_handshake (Fault c e w)) m = (Exc e, after_fault c w m).
Proof.
  unfold iteration, after_fault, bind, call, emit, process_stmt, ret.
  destruct c, m as [g l]; simpl;
    rewrite <- ?app_assoc, ?app_nil_r; reflexivity.
Qed.

(** The last handshake never lets the body run to its end. *)
Lemma last_iteration_leaves (e : Ending) (m : Machine) :
  fst (iteration (last_handshake e) m) <> Ok true.
Proof.
  destruct e as [|c x w].
  - rewrite iteration_finish. discriminate.
  - rewrite iteration_fault. discriminate.
Qed.

Lemma loop_run_ticks (ws : list Cpp2PyStruct) (e : Ending) (m : Machine) :
  loop ws e m = loop [] e (run_ticks ws m).
Proof.
  revert m. induction ws as [|w ws IH]; intros m; [reflexivity|].
  simpl run_ticks. rewrite <- IH.
  simpl. unfold bind at 1. rewrite iteration_tick. reflexivity.
Qed.

Lemma loop_exit (s : Script) :
  loop (ticks s) (ending s) initial_machine
  = (match ending s with Finish => Ok tt | Fault _ e _ => Exc e end, at_exit s).
Proof.
  rewrite loop_run_ticks. unfold at_exit. simpl. unfold bind.
  destruct (ending s) as [|c e w].
  - rewrite iteration_finish. reflexivity.
  - rewrite iteration_fault. reflexivity.
Qed.

Lemma export_csv_run (m : Machine) :
  export_csv m
  = (Ok tt, {| vars := vars m; log := log m ++ export_events (data_store (vars m)) |}).
Proof.
  unfold export_csv, export_events, emit.
  destruct (Py.truthy (data_store (vars m))); [reflexivity|].
  rewrite app_nil_r. destruct m; reflexivity.
Qed.

(** The whole program: the exit status, the final variables and the full
    log. *)
Lemma main_run (s : Script) :
  main s
  = (exit_of s,
     {| vars := vars (at_exit s);
        log := log (at_exit s)
               ++ closing_events s (data_store (vars (at_exit s))) |}).
Proof.
  unfold main, try_loop, exit_of, closing_events.
  rewrite loop_exit.
  destruct (ending s) as [|c e w].
  - unfold finally_block, bind. rewrite export_csv_run. unfold emit; simpl.
    rewrite <- app_assoc. reflexivity.
  - destruct (is_Exception e) eqn:E.
    + unfold except_handler, finally_block, bind.
      rewrite !export_csv_run. unfold emit; simpl.
      rewrite <- !app_assoc. reflexivity.
    + unfold finally_block, bind. rewrite export_csv_run. unfold emit; simpl.
      rewrite <- app_assoc. destruct e; try discriminate E; reflexivity.
Qed.


(** ** Facts about one processing step and about folds of it *)

(** The four paths through the window code: timestamp changed or not,
    window empty or not. *)
Ltac window_cases w g :=
  unfold process, window_update;
  destruct (Py.ne (now_sec w) (prev_now_sec g));
  destruct (Py.truthy (current_dl_values g));
  reflexivity.

Section ProcessFacts.

Variables (w : Cpp2PyStruct) (g : Globals).

Lemma process_out :
  p_out (process w g)
  = if closes_window w g
    then [EvPrintMeanDL (prev_now_sec g) (Py.mean (current_dl_values g))]
    else [].
Proof.
  unfold closes_window. window_cases w g.
Qed.

Lemma process_mean :
  prev_mean_dl (p_vars (process w g))
  = if closes_window w g
    then Some (Py.mean (current_dl_values g))
    else prev_mean_dl g.
Proof.
  unfold closes_window. window_cases w g.
Qed.

Lemma process_prev_now_sec :
  prev_now_sec (p_vars (process w g))
  = if Py.ne (now_sec w) (prev_now_sec g) then now_sec w else prev_now_sec g.
Proof.
  window_cases w g.
Qed.

Lemma process_current :
  current_dl_values (p_vars (process w g))
  = if Py.ne (now_sec w) (prev_now_sec g)
    then [dl_tp w]
    else current_dl_values g ++ [dl_tp w].
Proof.
  window_cases w g.
Qed.

Lemma process_set_ApTx :
  p_set_ApTx (process w g) = adaptive_ApTx (prev_mean_dl (p_vars (process w g))).
Proof.
  unfold process. destruct (window_update _ _ g) as [g1 out]. reflexivity.
Qed.

Lemma process_store :
  data_store (p_vars (process w g))
  = data_store g ++ [data_point w (p_set_ApTx (process w g))].
Proof.
  window_cases w g.
Qed.

Lemma csv_exports_out : csv_exports (p_out (process w g)) = [].
Proof. rewrite process_out. destruct (closes_window w g); reflexivity. Qed.

Lemma written_out : written (p_out (process w g)) = [].
Proof. rewrite process_out. destruct (closes_window w g); reflexivity. Qed.

End ProcessFacts.

(** Folds of [process] and what they leave in the log and the store. *)

Lemma closed_means_app (l1 l2 : list Event) :
  closed_means (l1 ++ l2) = closed_means l1 ++ closed_means l2.
Proof. apply flat_map_app. Qed.

Lemma written_app (l1 l2 : list Event) :
  written (l1 ++ l2) = written l1 ++ written l2.
Proof. apply flat_map_app. Qed.

Lemma csv_exports_app (l1 l2 : list Event) :
  csv_exports (l1 ++ l2) = csv_exports l1 ++ csv_exports l2.
Proof. apply flat_map_app. Qed.

Lemma closed_means_tick (w : Cpp2PyStruct) (p : Processed) :
  closed_means (tick_events w p) = closed_means (p_out p).
Proof.
  unfold tick_events. rewrite !closed_means_app. simpl. apply app_nil_r.
Qed.

Lemma written_tick (w : Cpp2PyStruct) (g : Globals) :
  written (tick_events w (process w g)) = [p_set_ApTx (process w g)].
Proof.
  unfold tick_events. rewrite !written_app, written_out. reflexivity.
Qed.

Lemma csv_exports_tick (w : Cpp2PyStruct) (g : Globals) :
  csv_exports (tick_events w (process w g)) = [].
Proof.
  unfold tick_events. rewrite !csv_exports_app, csv_exports_out. reflexivity.
Qed.

Lemma vars_run_ticks (ws : list Cpp2PyStruct) (m : Machine) :
  vars (run_ticks ws m) = vars (run_ticks ws {| vars := vars m; log := [] |}).
Proof.
  revert m. induction ws as [|w ws IH]; intros m; [reflexivity|].
  simpl. rewrite IH. symmetry. rewrite IH. reflexivity.
Qed.

Lemma closed_means_run_ticks (ws : list Cpp2PyStruct) (m : Machine) :
  closed_means (log (run_ticks ws m))
  = closed_means (log m) ++ window_means ws (vars m).
Proof.
  revert m. induction ws as [|w ws IH]; intros m; simpl.
  - symmetry. apply app_nil_r.
  - rewrite IH. simpl. rewrite closed_means_app, closed_means_tick.
    symmetry. apply app_assoc.
Qed.

Lemma written_run_ticks (ws : list Cpp2PyStruct) (m : Machine) :
  written (log (run_ticks ws m))
  = written (log m) ++ map snd (rows_of ws (vars m)).
Proof.
  revert m. induction ws as [|w ws IH]; intros m; simpl.
  - symmetry. apply app_nil_r.
  - rewrite IH. simpl. rewrite written_app, written_tick.
    rewrite <- app_assoc. reflexivity.
Qed.

Lemma csv_exports_run_ticks (ws : list Cpp2PyStruct) (m : Machine) :
  csv_exports (log (run_ticks ws m)) = csv_exports (log m).
Proof.
  revert m. induction ws as [|w ws IH]; intros m; simpl; [reflexivity|].
  rewrite IH. simpl. rewrite csv_exports_app, csv_exports_tick.
  apply app_nil_r.
Qed.

Lemma data_store_run_ticks (ws : list Cpp2PyStruct) (m : Machine) :
  data_store (vars (run_ticks ws m))
  = data_store (vars m) ++ map row_dict (rows_of ws (vars m)).
Proof.
  revert m. induction ws as [|w ws IH]; intros m; simpl.
  - symmetry. apply app_nil_r.
  - rewrite IH. simpl. rewrite process_store, <- app_assoc. reflexivity.
Qed.

Lemma length_rows_of (ws : list Cpp2PyStruct) (g : Globals) :
  List.length (rows_of ws g) = List.length ws.
Proof.
  revert g. induction ws as [|w ws IH]; intros g; simpl; [reflexivity|].
  rewrite IH. reflexivity.
Qed.

(** The store when the loop is left holds exactly the collected rows. *)
Lemma data_store_at_exit (s : Script) :
  data_store (vars (at_exit s)) = map row_dict (collected s).
Proof.
  unfold at_exit, collected.
  destruct (ending s) as [|c e w]; simpl.
  - rewrite data_store_run_ticks, app_nil_r. reflexivity.
  - rewrite map_app.
    destruct (after_process c); simpl.
    + rewrite process_store, data_store_run_ticks. reflexivity.
    + rewrite data_store_run_ticks, app_nil_r. reflexivity.
Qed.

(** Inside the loop nothing is exported. *)
Lemma csv_exports_at_exit (s : Script) : csv_exports (log (at_exit s)) = [].
Proof.
  unfold at_exit.
  destruct (ending s) as [|c e w]; simpl.
  - rewrite csv_exports_app, csv_exports_run_ticks. reflexivity.
  - rewrite csv_exports_app, csv_exports_run_ticks. simpl.
    destruct c; simpl; rewrite ?csv_exports_app, ?csv_exports_out; reflexivity.
Qed.

Lemma vars_run_ticks_globals (ws : list Cpp2PyStruct) (m : Machine) :
  vars (run_ticks ws m) = globals_after ws (vars m).
Proof.
  revert m. induction ws as [|w ws IH]; intros m; [reflexivity|].
  simpl. rewrite IH. reflexivity.
Qed.


(** ** The directive computation *)

Section Policy.

Import FloatOrder.

Lemma one_lt_thirty : (1.0 <? 30.0) = true.
Proof. reflexivity. Qed.

(** [max(1.0, min(30.0, x))] lies in [[1.0, 30.0]] for every float [x],
    [nan] and the infinities included. *)
Lemma max_min_in_range (x : float) :
  in_range 1.0 30.0 (Py.max 1.0 (Py.min 30.0 x)).
Proof.
  unfold in_range, Py.max, Py.min.
  destruct (x <? 30.0) eqn:Hhi.
  - destruct (1.0 <? x) eqn:Hlo.
    + split; apply ltb_leb; assumption.
    + split; reflexivity.
  - rewrite one_lt_thirty. split; reflexivity.
Qed.

(** On numbers, [max(1.0, min(30.0, x))] is the clamp into [[1.0, 30.0]]. *)
Lemma max_min_clamp (x : float) :
  is_number x -> Py.max 1.0 (Py.min 30.0 x) = clamp 1.0 30.0 x.
Proof.
  unfold is_number, Py.max, Py.min, clamp. intros Hx.
  assert (H1 : (1.0 =? 1.0) = true) by reflexivity.
  assert (H30 : (30.0 =? 30.0) = true) by reflexivity.
  destruct (x <? 1.0) eqn:Hlt1.
  - (* below the range *)
    assert (Hx30 : (x <? 30.0) = true).
    { destruct (x <? 30.0) eqn:E; [reflexivity|].
      pose proof (leb_total x 30.0 Hx H30 E) as A.
      pose proof (leb_trans _ _ _ A (ltb_leb _ _ Hlt1)) as B.
      discriminate B. }
    rewrite Hx30, (ltb_asym _ _ Hlt1). reflexivity.
  - destruct (30.0 <? x) eqn:Hgt30.
    + (* above the range *)
      rewrite (ltb_asym _ _ Hgt30), one_lt_thirty. reflexivity.
    + (* inside *)
      pose proof (leb_total x 1.0 Hx H1 Hlt1) as Hge1.
      pose proof (leb_total 30.0 x H30 Hx Hgt30) as Hle30.
      destruct (x <? 30.0) eqn:E30.
      * destruct (1.0 <? x) eqn:E1; [reflexivity|].
        symmetry. apply (eqb_finite_eq x 1.0 false 4503599627370496 (-52));
          [reflexivity|].
        rewrite eqb_sym. apply leb_not_ltb; assumption.
      * rewrite one_lt_thirty. symmetry.
        apply (eqb_finite_eq x 30.0 false 8444249301319680 (-48));
          [reflexivity|].
        apply leb_not_ltb; assumption.
Qed.

End Policy.

(** C4.  The directive is a total function of the previous window mean: it
    is exactly [20.0] when no mean is known; for any known mean it lies in
    [[1.0, 30.0]] (even for infinities and [nan]); and for every mean that
    is a number, however negative or large, it is
    [30.0 - 30.0 * m / 100.0] clamped into [[1.0, 30.0]]. *)
Theorem adaptive_ApTx_total_clamped :
  adaptive_ApTx None = 20.0
  /\ (forall m : float, in_range 1.0 30.0 (adaptive_ApTx (Some m)))
  /\ (forall m : float,
        is_number m ->
        adaptive_ApTx (Some m) = clamp 1.0 30.0 (raw_directive m)).
Proof.
  split; [reflexivity|]. split.
  - intros m. apply max_min_in_range.
  - intros m Hm. apply (max_min_clamp (raw_directive m)).
    apply FloatArith.raw_directive_number, Hm.
Qed.

(** The clamp equation at the mean of scenario B. *)
Lemma adaptive_ApTx_total_clamped_witness :
  is_number 20.0
  /\ adaptive_ApTx (Some 20.0) = clamp 1.0 30.0 (raw_directive 20.0)
  /\ clamp 1.0 30.0 (raw_directive 20.0) = 24.0.
Proof.
  assert (H : is_number 20.0) by reflexivity.
  split; [exact H|]. split; [|reflexivity].
  exact (proj2 (proj2 adaptive_ApTx_total_clamped) 20.0 H).
Defined.

(** ** Window aggregation over non-decreasing timestamps *)

Section Window.

Import FloatOrder.

Lemma eqb_congr_r (x y z : float) :
  (y =? z) = true -> (x =? y) = (x =? z).
Proof.
  intros Hyz.
  destruct (x =? y) eqn:Exy, (x =? z) eqn:Exz; try reflexivity.
  - rewrite (eqb_trans _ _ _ Exy Hyz) in Exz. discriminate Exz.
  - rewrite eqb_sym in Hyz.
    rewrite (eqb_trans _ _ _ Exz Hyz) in Exy. discriminate Exy.
Qed.

Lemma number_leb_refl (x : float) : (x =? x) = true -> (x <=? x) = true.
Proof. intros H. apply (eqb_leb _ _ H). Qed.

(** In a non-decreasing sequence the head is below everything after it. *)
Lemma non_decreasing_head (a : float) (ts : list float) :
  non_decreasing (a :: ts) -> Forall (fun t => (a <=? t) = true) ts.
Proof.
  revert a. induction ts as [|b ts IH]; intros a H; [constructor|].
  destruct H as [Hab Hts]. constructor; [exact Hab|].
  apply (Forall_impl _ (P := fun t => (b <=? t) = true)).
  - intros t Hbt. eapply leb_trans; eassumption.
  - apply IH, Hts.
Qed.

Lemma non_decreasing_tail (a : float) (ts : list float) :
  non_decreasing (a :: ts) -> non_decreasing ts.
Proof. destruct ts as [|b ts]; [trivial|]. intros [_ H]. exact H. Qed.

Lemma samples_at_app (t : float) (l1 l2 : list Cpp2PyStruct) :
  samples_at t (l1 ++ l2) = samples_at t l1 ++ samples_at t l2.
Proof. unfold samples_at. rewrite filter_app. apply map_app. Qed.

Lemma samples_at_none (t : float) (l : list Cpp2PyStruct) :
  Forall (fun w => (now_sec w =? t) = false) l -> samples_at t l = [].
Proof.
  unfold samples_at. induction 1 as [|w l Hw _ IH]; [reflexivity|].
  simpl. rewrite Hw. exact IH.
Qed.

Lemma samples_at_congr (t t' : float) (l : list Cpp2PyStruct) :
  (t =? t') = true -> samples_at t l = samples_at t' l.
Proof.
  intros H. unfold samples_at. f_equal. apply filter_ext.
  intros w. apply eqb_congr_r, H.
Qed.

Lemma samples_at_member (t : float) (l : list Cpp2PyStruct) (w : Cpp2PyStruct) :
  In w l -> (now_sec w =? t) = true -> samples_at t l <> [].
Proof.
  intros Hin Ht E.
  assert (Hf : In w (filter (fun w => now_sec w =? t) l))
    by (apply filter_In; split; assumption).
  unfold samples_at in E. apply map_eq_nil in E. rewrite E in Hf. exact Hf.
Qed.

Lemma truthy_true {A : Type} (l : list A) : l <> [] -> Py.truthy l = true.
Proof. destruct l; [congruence|reflexivity]. Qed.

Lemma firstn_succ_nth {A : Type} (d : A) (l : list A) (k : nat) :
  (k < List.length l)%nat -> firstn (S k) l = firstn k l ++ [nth k l d].
Proof.
  revert k. induction l as [|x l IH]; intros k Hk; [cbn in Hk; lia|].
  destruct k as [|k]; [reflexivity|].
  cbn [List.length] in Hk. cbn [firstn nth app]. rewrite <- IH by lia. reflexivity.
Qed.

Lemma fold_add_firstn (l : list float) (k : nat) :
  (k <= List.length l)%nat ->
  fold_left PrimFloat.add (firstn k l) 0 = sum_upto l k.
Proof.
  induction k as [|k IH]; intros Hk; [reflexivity|].
  rewrite (firstn_succ_nth 0 l k) by lia.
  rewrite fold_left_app. cbn [fold_left sum_upto]. rewrite IH by lia. reflexivity.
Qed.

(** [sum(l) / len(l)] is the arithmetic mean of [l]. *)
Lemma mean_is_arithmetic_mean (l : list float) : Py.mean l = arithmetic_mean l.
Proof.
  unfold Py.mean, Py.sum, Py.len, arithmetic_mean, sample_count.
  rewrite <- (fold_add_firstn l (List.length l)) by lia.
  rewrite firstn_all. reflexivity.
Qed.

(** One step under the invariant of the window.  After the records [pre],
    whose last one is [l], the window timestamp equals the timestamp of [l]
    and the window holds the samples of all records of [pre] with that
    timestamp.  Processing the next record [b] keeps this for [pre ++ [b]];
    it reports and stores the arithmetic mean of all samples of the whole
    sequence at the timestamp of [l] when the timestamp changes, and
    reports nothing and keeps the known mean when it does not. *)
Lemma window_step_sorted (pre rest : list Cpp2PyStruct) (l b : Cpp2PyStruct)
      (g : Globals) :
  In l pre ->
  Forall (fun r => (now_sec r <=? now_sec l) = true) pre ->
  non_decreasing (map now_sec (l :: b :: rest)) ->
  (prev_now_sec g =? now_sec l) = true ->
  current_dl_values g = samples_at (prev_now_sec g) pre ->
  (In b (pre ++ [b])
   /\ Forall (fun r => (now_sec r <=? now_sec b) = true) (pre ++ [b])
   /\ (prev_now_sec (p_vars (process b g)) =? now_sec b) = true
   /\ current_dl_values (p_vars (process b g))
      = samples_at (prev_now_sec (p_vars (process b g))) (pre ++ [b]))
  /\ closed_means (p_out (process b g))
     = (if now_sec b =? now_sec l then []
        else [arithmetic_mean (samples_at (now_sec l) (pre ++ b :: rest))])
  /\ prev_mean_dl (p_vars (process b g))
     = (if now_sec b =? now_sec l then prev_mean_dl g
        else Some (arithmetic_mean (samples_at (now_sec l) (pre ++ b :: rest)))).
Proof.
  intros Hin Hpre Hsorted Hprev Hcur.
  destruct Hsorted as [Hlb Hsorted].
  pose proof (leb_refl_r _ _ Hlb) as Hb.
  pose proof (non_decreasing_head _ _ Hsorted) as Hafter.
  assert (Htest : (now_sec b =? prev_now_sec g) = (now_sec b =? now_sec l))
    by (apply eqb_congr_r, Hprev).
  assert (Hpre' : Forall (fun r => (now_sec r <=? now_sec b) = true) (pre ++ [b])).
  { apply Forall_app. split.
    - apply (Forall_impl _ (P := fun r => (now_sec r <=? now_sec l) = true));
        [|exact Hpre].
      intros r Hr. eapply leb_trans; eassumption.
    - constructor; [apply number_leb_refl, Hb|constructor]. }
  assert (Hin' : In b (pre ++ [b])) by (apply in_or_app; right; left; reflexivity).
  rewrite process_out, process_mean, process_prev_now_sec, process_current.
  unfold closes_window, Py.ne. rewrite Htest.
  destruct (now_sec b =? now_sec l) eqn:Hbl; cbn [negb andb].
  - (* same timestamp: the sample joins the open window *)
    assert (Hbp : (now_sec b =? prev_now_sec g) = true) by (rewrite Htest; reflexivity).
    repeat split; try assumption.
    + rewrite eqb_sym. exact Hbp.
    + rewrite samples_at_app, Hcur. f_equal.
      unfold samples_at. cbn [filter]. rewrite Hbp. reflexivity.
  - (* the timestamp changes: the window closes *)
    assert (Hlb' : (now_sec l =? now_sec b) = false) by (rewrite eqb_sym; exact Hbl).
    assert (Hnonempty : current_dl_values g <> []).
    { rewrite Hcur. apply (samples_at_member _ _ l Hin).
      rewrite eqb_sym. exact Hprev. }
    assert (Hmean : Py.mean (current_dl_values g)
                    = arithmetic_mean (samples_at (now_sec l) (pre ++ b :: rest))).
    { rewrite mean_is_arithmetic_mean. f_equal.
      rewrite Hcur, (samples_at_congr _ _ pre Hprev).
      rewrite (samples_at_app _ pre (b :: rest)).
      rewrite (samples_at_none (now_sec l) (b :: rest)), app_nil_r; [reflexivity|].
      constructor.
      - exact Hbl.
      - apply Forall_forall. intros r Hr.
        apply (in_map now_sec) in Hr.
        pose proof (proj1 (Forall_forall _ _) Hafter _ Hr) as Hbr.
        destruct (now_sec r =? now_sec l) eqn:E; [|reflexivity].
        rewrite eqb_sym in E.
        rewrite (eqb_squeeze _ _ _ Hlb Hbr E) in Hlb'. discriminate Hlb'. }
    rewrite (truthy_true _ Hnonempty), Hmean. cbn [closed_means flat_map app].
    repeat split; try assumption.
    rewrite samples_at_app, (samples_at_none (now_sec b) pre).
    + unfold samples_at. cbn [filter]. rewrite Hb. reflexivity.
    + apply Forall_forall. intros r Hr.
      pose proof (proj1 (Forall_forall _ _) Hpre _ Hr) as Hrl.
      destruct (now_sec r =? now_sec b) eqn:E; [|reflexivity].
      pose proof (eqb_squeeze _ _ _ Hrl Hlb E) as Erl.
      rewrite eqb_sym in Erl.
      rewrite (eqb_trans _ _ _ Erl E) in Hlb'. discriminate Hlb'.
Qed.

(** From a state under the invariant, the means reported for the remaining
    records are the transition means of the whole sequence. *)
Lemma window_means_from (rest pre : list Cpp2PyStruct) (l : Cpp2PyStruct) (g : Globals) :
  In l pre ->
  Forall (fun r => (now_sec r <=? now_sec l) = true) pre ->
  non_decreasing (map now_sec (l :: rest)) ->
  (prev_now_sec g =? now_sec l) = true ->
  current_dl_values g = samples_at (prev_now_sec g) pre ->
  window_means rest g = transition_means (pre ++ rest) (l :: rest).
Proof.
  revert pre l g.
  induction rest as [|b rest IH]; intros pre l g Hin Hpre Hsorted Hprev Hcur;
    [reflexivity|].
  destruct (window_step_sorted pre rest l b g Hin Hpre Hsorted Hprev Hcur)
    as [[Hin' [Hpre' [Hprev' Hcur']]] [Hout _]].
  cbn [window_means transition_means]. rewrite Hout.
  rewrite (IH (pre ++ [b]) b _ Hin' Hpre' (non_decreasing_tail _ _ Hsorted) Hprev' Hcur').
  rewrite <- app_assoc. cbn [app].
  destruct (now_sec b =? now_sec l); reflexivity.
Qed.

(** And the means stored after each of them are the known means of the
    whole sequence. *)
Lemma stored_means_from (rest pre : list Cpp2PyStruct) (l : Cpp2PyStruct) (g : Globals) :
  In l pre ->
  Forall (fun r => (now_sec r <=? now_sec l) = true) pre ->
  non_decreasing (map now_sec (l :: rest)) ->
  (prev_now_sec g =? now_sec l) = true ->
  current_dl_values g = samples_at (prev_now_sec g) pre ->
  stored_means rest g = known_means (pre ++ rest) (prev_mean_dl g) (l :: rest).
Proof.
  revert pre l g.
  induction rest as [|b rest IH]; intros pre l g Hin Hpre Hsorted Hprev Hcur;
    [reflexivity|].
  destruct (window_step_sorted pre rest l b g Hin Hpre Hsorted Hprev Hcur)
    as [[Hin' [Hpre' [Hprev' Hcur']]] [_ Hmean]].
  cbn [stored_means known_means].
  rewrite (IH (pre ++ [b]) b _ Hin' Hpre' (non_decreasing_tail _ _ Hsorted) Hprev' Hcur').
  rewrite Hmean, <- app_assoc. cbn [app]. reflexivity.
Qed.

(** The state after the first record of a non-decreasing sequence is
    under the invariant, with no mean known. *)
Lemma first_record_state (w0 b : Cpp2PyStruct) (rest : list Cpp2PyStruct) :
  non_decreasing (map now_sec (w0 :: b :: rest)) ->
  let g := p_vars (process w0 initial_globals) in
  Forall (fun r => (now_sec r <=? now_sec w0) = true) [w0]
  /\ (prev_now_sec g =? now_sec w0) = true
  /\ current_dl_values g = samples_at (prev_now_sec g) [w0]
  /\ prev_mean_dl g = None.
Proof.
  intros Hsorted. cbv zeta.
  pose proof Hsorted as [Hwb _].
  pose proof (leb_refl_l _ _ Hwb) as Hw0.
  assert (Hprev : (prev_now_sec (p_vars (process w0 initial_globals)) =? now_sec w0)
                  = true).
  { rewrite process_prev_now_sec. cbn [initial_globals prev_now_sec].
    unfold Py.ne. destruct (now_sec w0 =? -1.0) eqn:E; cbn [negb].
    - rewrite eqb_sym. exact E.
    - exact Hw0. }
  split; [constructor; [apply number_leb_refl, Hw0|constructor]|].
  split; [exact Hprev|]. split.
  - rewrite process_current. cbn [initial_globals prev_now_sec current_dl_values app].
    assert (E : (if Py.ne (now_sec w0) (-1.0) then [dl_tp w0] else [dl_tp w0])
                = [dl_tp w0]) by (destruct (Py.ne (now_sec w0) (-1.0)); reflexivity).
    rewrite E. unfold samples_at. cbn [filter].
    rewrite eqb_sym, Hprev. reflexivity.
  - rewrite process_mean. unfold closes_window.
    cbn [initial_globals current_dl_values prev_mean_dl Py.truthy].
    rewrite andb_false_r. reflexivity.
Qed.

(** From the initial state, over a whole non-decreasing sequence. *)
Lemma window_means_sorted (ws : list Cpp2PyStruct) :
  non_decreasing (map now_sec ws) ->
  window_means ws initial_globals = transition_means ws ws.
Proof.
  destruct ws as [|w0 rest]; [reflexivity|]. intros Hsorted.
  cbn [window_means]. rewrite process_out.
  unfold closes_window. cbn [initial_globals current_dl_values Py.truthy].
  rewrite andb_false_r. cbn [closed_means flat_map app].
  destruct rest as [|b rest]; [reflexivity|].
  destruct (first_record_state w0 b rest Hsorted) as [Hpre [Hprev [Hcur _]]].
  apply (window_means_from (b :: rest) [w0] w0);
    [left; reflexivity|assumption..].
Qed.

Lemma stored_means_sorted (ws : list Cpp2PyStruct) :
  non_decreasing (map now_sec ws) ->
  stored_means ws initial_globals = mean_history ws.
Proof.
  destruct ws as [|w0 rest]; [reflexivity|]. intros Hsorted.
  cbn [stored_means mean_history].
  destruct rest as [|b rest].
  - rewrite process_mean. unfold closes_window.
    cbn [initial_globals current_dl_values prev_mean_dl Py.truthy].
    rewrite andb_false_r. reflexivity.
  - destruct (first_record_state w0 b rest Hsorted) as [Hpre [Hprev [Hcur Hnone]]].
    rewrite Hnone. f_equal. rewrite <- Hnone.
    apply (stored_means_from (b :: rest) [w0] w0);
      [left; reflexivity|assumption..].
Qed.

(** The mean stored last is the mean known when the loop is left. *)
Lemma last_stored_mean (ws : list Cpp2PyStruct) (g : Globals) :
  prev_mean_dl (globals_after ws g) = last (stored_means ws g) (prev_mean_dl g).
Proof.
  revert g. induction ws as [|w ws IH]; intros g; [reflexivity|].
  cbn [globals_after stored_means]. rewrite IH.
  generalize (stored_means ws (p_vars (process w g))) as l.
  generalize (prev_mean_dl (p_vars (process w g))) as x.
  generalize (prev_mean_dl g) as d.
  intros d x l. revert x d.
  induction l as [|y l IHl]; intros x d; [reflexivity|].
  change (last (x :: y :: l) d) with (last (y :: l) d).
  rewrite <- (IHl y x). apply IHl.
Qed.

End Window.

(** ** Leaving the loop: exports and the finish path *)

Lemma csv_exports_export_events (ds : list Dict) :
  csv_exports (export_events ds) = if Py.truthy ds then [pd_DataFrame ds] else [].
Proof. unfold export_events. destruct (Py.truthy ds); reflexivity. Qed.

Lemma truthy_map_row_dict (rs : list (Cpp2PyStruct * float)) :
  Py.truthy (map row_dict rs) = Py.truthy rs.
Proof. destruct rs; reflexivity. Qed.

(** What a run leaves behind: the collected rows in the store, and the
    store exported [exports_of s] times. *)
Lemma store_and_exports (s : Script) :
  data_store (vars (snd (main s))) = map row_dict (collected s)
  /\ csv_exports (log (snd (main s)))
     = repeat (pd_DataFrame (map row_dict (collected s))) (exports_of s).
Proof.
  rewrite main_run. cbn [snd vars log].
  rewrite data_store_at_exit. split; [reflexivity|].
  rewrite csv_exports_app, csv_exports_at_exit. cbn [app].
  unfold closing_events, exports_of.
  destruct (ending s) as [|c e w].
  - rewrite csv_exports_app, csv_exports_export_events, truthy_map_row_dict.
    destruct (collected s); reflexivity.
  - destruct (is_Exception e).
    + rewrite !csv_exports_app, csv_exports_export_events, truthy_map_row_dict.
      destruct (collected s); reflexivity.
    + rewrite csv_exports_app, csv_exports_export_events, truthy_map_row_dict.
      destruct (collected s); reflexivity.
Qed.

(** C1, as the code behaves.  On every exit path the store holds all rows
    collected so far and is written whole whenever it is non-empty: once
    after the finish signal and after an exception that is not an
    [Exception] (cancellation), but twice, with the same content, after an
    [Exception] raised in the loop, since both the handler and the
    [finally] block export.  With no rows nothing is written. *)
Theorem export_on_every_exit_path (s : Script) :
  let m := snd (main s) in
  data_store (vars m) = map row_dict (collected s)
  /\ (List.length (ticks s) <= List.length (collected s))%nat
  /\ csv_exports (log m)
     = repeat (pd_DataFrame (data_store (vars m))) (exports_of s).
Proof.
  cbv zeta. destruct (store_and_exports s) as [Hds Hex].
  split; [exact Hds|]. split.
  - unfold collected. rewrite length_app, length_rows_of. lia.
  - rewrite Hds. exact Hex.
Qed.

(** C1 as stated fails: with one row collected and a channel error on the
    next read, the file is written twice, not once. *)
Lemma export_twice_after_channel_error :
  List.length (collected scenario_error) = 1%nat
  /\ List.length (csv_exports (log (snd (main scenario_error)))) = 2%nat
  /\ List.length (csv_exports (log (snd (main scenario_error)))) <> 1%nat.
Proof. vm_compute. repeat split. discriminate. Qed.

Lemma last_iteration_app_begin (pre tl : list Event) :
  existsb is_PyRecvBegin tl = false ->
  last_iteration (pre ++ EvPyRecvBegin :: tl) = EvPyRecvBegin :: tl.
Proof.
  intros Htl.
  assert (Hnil : last_iteration tl = []).
  { induction tl as [|ev tl IH]; [reflexivity|].
    simpl in Htl. apply orb_false_iff in Htl as [Hev Htl'].
    simpl. rewrite (IH Htl'), Hev. reflexivity. }
  induction pre as [|ev pre IH]; simpl.
  - rewrite Hnil. reflexivity.
  - rewrite IH. reflexivity.
Qed.

Lemma no_recv_begin_in_export (ds : list Dict) :
  existsb is_PyRecvBegin (export_events ds ++ [EvDelExp]) = false.
Proof. unfold export_events. destruct (Py.truthy ds); reflexivity. Qed.

(** C2, as the code behaves.  When the finish signal is observed after
    [PyRecvBegin()], the loop is left at once by [break]: the last iteration
    consists of [PyRecvBegin()] and the two [PyGetFinished()] calls only.
    [PyRecvEnd()] is not called on that path, no write phase is entered,
    and the process ends with exit code 0 after the export. *)
Theorem finish_breaks_without_recv_end (ws : list Cpp2PyStruct) :
  let s := {| ticks := ws; ending := Finish |} in
  let m := snd (main s) in
  let tail := export_events (data_store (vars m)) ++ [EvDelExp] in
  fst (main s) = ExitCode 0
  /\ log m = log (run_ticks ws initial_machine) ++ finish_events ++ tail
  /\ last_iteration (log m) = finish_events ++ tail
  /\ existsb is_PyRecvEnd (last_iteration (log m)) = false
  /\ existsb is_send_phase (last_iteration (log m)) = false.
Proof.
  cbv zeta. rewrite main_run. cbn [fst snd vars log].
  unfold exit_of, closing_events, at_exit. cbn [ending ticks vars log].
  set (R := run_ticks ws initial_machine).
  set (tail := export_events (data_store (vars R)) ++ [EvDelExp]).
  assert (Hlast : last_iteration ((log R ++ finish_events) ++ tail)
                  = finish_events ++ tail).
  { rewrite <- app_assoc. unfold finish_events. cbn [app].
    apply last_iteration_app_begin. cbn [existsb is_PyRecvBegin orb].
    apply no_recv_begin_in_export. }
  split; [reflexivity|]. split; [symmetry; apply app_assoc|].
  split; [exact Hlast|]. rewrite Hlast.
  unfold tail, export_events.
  destruct (Py.truthy (data_store (vars R))); split; reflexivity.
Qed.

(** C2 as stated fails: in scenario A the last iteration, the one that sees
    the finish signal, never calls [PyRecvEnd()]. *)
Lemma finish_path_skips_recv_end :
  let m := snd (main (scenario_A station0 station0 station0)) in
  firstn 3 (last_iteration (log m)) = finish_events
  /\ existsb is_PyRecvEnd (last_iteration (log m)) = false.
Proof. vm_compute. split; reflexivity. Qed.

(** ** End-to-end scenarios *)

(** C5, as the code behaves.  In scenario A the three directives written
    and recorded are [20.0; 20.0; 20.0] and the run ends normally, but the
    finish signal closes no window: no mean is ever computed, the known mean
    is still absent when the loop is left, and the three samples are still
    in the open window. *)
Theorem scenario_A_run (o1 o2 o3 : Cpp2PyStruct) :
  let m := snd (main (scenario_A o1 o2 o3)) in
  fst (main (scenario_A o1 o2 o3)) = ExitCode 0
  /\ written (log m) = [20.0; 20.0; 20.0]
  /\ recorded (data_store (vars m))
     = [Some (PyFloat 20.0); Some (PyFloat 20.0); Some (PyFloat 20.0)]
  /\ closed_means (log m) = []
  /\ prev_mean_dl (vars m) = None
  /\ prev_now_sec (vars m) = 1.0
  /\ current_dl_values (vars m) = [10.0; 20.0; 30.0].
Proof. vm_compute. repeat split. Qed.

(** C5 as stated fails: at the end of scenario A there is no closed window
    with mean 20.0; the list of closed-window means is empty and the known
    mean is absent. *)
Lemma scenario_A_closes_no_window :
  let m := snd (main (scenario_A station0 station0 station0)) in
  closed_means (log m) <> [20.0] /\ prev_mean_dl (vars m) <> Some 20.0.
Proof. vm_compute. split; discriminate. Qed.

(** C6.  In scenario B the window of timestamp 1.0 closes with mean 20.0
    exactly when the record of timestamp 2.0 is processed, and the directive
    computed, written and recorded for that record is
    [30 - 30*20/100 = 24.0]. *)
Theorem scenario_B_run (o1 o2 o3 o4 : Cpp2PyStruct) :
  let first3 := [tick_at o1 1.0 10.0; tick_at o2 1.0 20.0; tick_at o3 1.0 30.0] in
  let before := run_ticks first3 initial_machine in
  let m := snd (main (scenario_B o1 o2 o3 o4)) in
  closed_means (log before) = []
  /\ p_out (process (tick_at o4 2.0 50.0) (vars before)) = [EvPrintMeanDL 1.0 20.0]
  /\ p_set_ApTx (process (tick_at o4 2.0 50.0) (vars before)) = 24.0
  /\ raw_directive 20.0 = 24.0
  /\ closed_means (log m) = [20.0]
  /\ written (log m) = [20.0; 20.0; 20.0; 24.0]
  /\ nth_error (recorded (data_store (vars m))) 3 = Some (Some (PyFloat 24.0)).
Proof. vm_compute. repeat split. Qed.

(** ** The first tick *)

(** C10.  The window timestamp starts at the sentinel [-1.0] with no
    samples, and the first update never computes a mean, whatever the first
    timestamp is: when it differs from [-1.0] the window changes and finds
    no samples; when it equals [-1.0] the window does not change; either way
    the record's sample becomes the only one in the window. *)
Theorem first_update_computes_no_mean (now dl : float) :
  let r := window_update now dl initial_globals in
  prev_now_sec initial_globals = (-1.0)%float
  /\ current_dl_values initial_globals = []
  /\ snd r = []
  /\ prev_mean_dl (fst r) = None
  /\ current_dl_values (fst r) = [dl]
  /\ prev_now_sec (fst r) = (if Py.ne now (-1.0) then now else -1.0)%float.
Proof.
  cbv zeta. unfold window_update. cbn [initial_globals prev_now_sec current_dl_values
    prev_mean_dl Py.truthy].
  destruct (Py.ne now (-1.0)); cbn; repeat split.
Qed.

(** ** The stored rows *)

Lemma cells_of_rows (rs : list (Cpp2PyStruct * float)) :
  map (fun d => map (fun k => dict_get k d) csv_columns) (map row_dict rs)
  = map csv_row rs.
Proof. rewrite map_map. apply map_ext. intros [w v]. reflexivity. Qed.

Lemma pd_DataFrame_rows (rs : list (Cpp2PyStruct * float)) :
  rs <> [] ->
  pd_DataFrame (map row_dict rs)
  = {| columns := csv_columns; rows := map csv_row rs |}.
Proof.
  intros Hne. unfold pd_DataFrame.
  assert (Hcols : match map row_dict rs with [] => [] | d :: _ => map fst d end
                  = csv_columns).
  { destruct rs as [|r rs]; [congruence|reflexivity]. }
  rewrite Hcols, cells_of_rows. reflexivity.
Qed.

(** C7, as the code behaves.  Every export writes one row per collected
    record under the nine columns [pos_x, pos_y, distance, dl_tp, ul_tp,
    get_ApTx, sta_id, now_sec, set_ApTx], in that order on every run: the
    order of the keys of the [data_point] literal, in which the station id
    is the seventh column. *)
Theorem csv_columns_fixed (s : Script) :
  let m := snd (main s) in
  Forall (fun df => df = {| columns := csv_columns;
                            rows := map csv_row (collected s) |})
         (csv_exports (log m))
  /\ Forall (fun d => map fst d = csv_columns) (data_store (vars m))
  /\ nth_error csv_columns 6 = Some "sta_id"%string.
Proof.
  destruct (store_and_exports s) as [Hds Hex].
  cbv zeta. rewrite Hex, Hds. split; [|split].
  - unfold exports_of. destruct (collected s) as [|r rs] eqn:E.
    + constructor.
    + rewrite <- E. assert (Hne : collected s <> []) by (rewrite E; discriminate).
      rewrite (pd_DataFrame_rows _ Hne).
      destruct (ending s) as [|c e w]; [|destruct (is_Exception e)];
        repeat constructor.
  - apply Forall_forall. intros d Hd.
    apply in_map_iff in Hd as [[w v] [<- _]]. reflexivity.
  - reflexivity.
Qed.

(** C7 as stated fails: the exported columns do not start with the station
    id; the first column is [pos_x]. *)
Lemma csv_columns_not_as_listed :
  let m := snd (main (scenario_A station0 station0 station0)) in
  map columns (csv_exports (log m)) = [csv_columns]
  /\ csv_columns <> listed_columns.
Proof. vm_compute. split; [reflexivity|discriminate]. Qed.

Lemma firstn_length_app {A : Type} (l1 l2 : list A) :
  firstn (List.length l1) (l1 ++ l2) = l1.
Proof.
  rewrite firstn_app, Nat.sub_diag, firstn_all. cbn. apply app_nil_r.
Qed.

Lemma recorded_rows (rs : list (Cpp2PyStruct * float)) :
  recorded (map row_dict rs) = map (fun r => Some (PyFloat (snd r))) rs.
Proof.
  unfold recorded. rewrite map_map. apply map_ext. intros [w v]. reflexivity.
Qed.

Lemma written_at_exit (s : Script) :
  written (log (at_exit s))
  = map snd (rows_of (ticks s) initial_globals)
    ++ match ending s with
       | Fault At_PySendEnd _ w =>
           [p_set_ApTx (process w (vars (run_ticks (ticks s) initial_machine)))]
       | _ => []
       end.
Proof.
  unfold at_exit.
  destruct (ending s) as [|c e w]; cbn [log vars].
  - rewrite written_app, written_run_ticks. reflexivity.
  - unfold after_fault. cbn [log]. rewrite written_app, written_run_ticks.
    cbn [initial_machine log vars written flat_map app]. f_equal.
    destruct c; cbn [fault_events]; rewrite ?written_app, ?written_out; reflexivity.
Qed.

Lemma written_closing (s : Script) (ds : list Dict) :
  written (closing_events s ds) = [].
Proof.
  unfold closing_events, export_events.
  destruct (ending s) as [|c e w]; [|destruct (is_Exception e)];
    destruct (Py.truthy ds); reflexivity.
Qed.

(** C9.  The directive written to the channel in an iteration is the one
    stored in that iteration's row: the values written, in order, are the
    [set_ApTx] entries of the first rows of [data_store], and every
    completed iteration has written its value.  (Only an iteration that
    raised between the append and the write has a row without a write.) *)
Theorem written_directive_is_recorded (s : Script) :
  let m := snd (main s) in
  let ws := written (log m) in
  map (fun v => Some (PyFloat v)) ws
  = firstn (List.length ws) (recorded (data_store (vars m)))
  /\ (List.length (ticks s) <= List.length ws)%nat.
Proof.
  cbv zeta. rewrite main_run. cbn [snd vars log].
  rewrite written_app, written_closing, app_nil_r.
  rewrite data_store_at_exit, recorded_rows, written_at_exit.
  unfold collected.
  set (R := rows_of (ticks s) initial_globals).
  assert (HR : List.length R = List.length (ticks s)) by apply length_rows_of.
  assert (Hmap : forall l : list (Cpp2PyStruct * float),
             map (fun v => Some (PyFloat v)) (map snd l)
             = map (fun r => Some (PyFloat (snd r))) l)
    by (intros l; apply map_map).
  assert (Hpre : forall x,
             map (fun v => Some (PyFloat v)) (map snd R ++ [])
             = firstn (List.length (map snd R ++ []))
                 (map (fun r => Some (PyFloat (snd r))) (R ++ x))).
  { intros x. rewrite app_nil_r, Hmap, length_map, map_app.
    rewrite <- (length_map (fun r => Some (PyFloat (snd r))) R).
    symmetry. apply firstn_length_app. }
  destruct (ending s) as [|c e w].
  - split; [apply Hpre|]. rewrite length_app, length_map. lia.
  - destruct c; cbn [after_process];
      try (split; [apply Hpre|rewrite length_app, length_map; lia]).
    split.
    + rewrite map_app, Hmap, map_app. cbn [map snd].
      symmetry. apply firstn_all2.
      rewrite !length_app, !length_map. cbn. lia.
    + rewrite length_app, length_map. lia.
Qed.

Lemma closed_means_closing (s : Script) (ds : list Dict) :
  closed_means (closing_events s ds) = [].
Proof.
  unfold closing_events, export_events.
  destruct (ending s) as [|c e w]; [|destruct (is_Exception e)];
    destruct (Py.truthy ds); reflexivity.
Qed.

Lemma closed_means_main_finish (ws : list Cpp2PyStruct) :
  closed_means (log (snd (main {| ticks := ws; ending := Finish |})))
  = window_means ws initial_globals.
Proof.
  rewrite main_run. cbn [snd log].
  rewrite closed_means_app, closed_means_closing, app_nil_r.
  unfold at_exit. cbn [ticks ending log].
  rewrite closed_means_app, closed_means_run_ticks. cbn. apply app_nil_r.
Qed.

(** C3.  For records whose timestamps never decrease, the run reports one
    closed-window mean per place where the timestamp changes between two
    consecutive records and none elsewhere, and each of them is the
    arithmetic mean, the samples added up in arrival order from 0 and the
    total divided by their number, of exactly the downlink samples of the
    records that carry the timestamp before the change.  That mean is also
    what the loop keeps in [prev_mean_dl]: after every record the stored
    mean is the mean of the window closed last, or [None] while no
    timestamp has changed yet, and so it is when the loop is left.
    Timestamps are compared with the float [==], without tolerance. *)
Theorem one_mean_per_timestamp_change (ws : list Cpp2PyStruct) :
  non_decreasing (map now_sec ws) ->
  closed_means (log (run_ticks ws initial_machine)) = transition_means ws ws
  /\ closed_means (log (snd (main {| ticks := ws; ending := Finish |})))
     = transition_means ws ws
  /\ stored_means ws initial_globals = mean_history ws
  /\ prev_mean_dl (vars (run_ticks ws initial_machine))
     = last (mean_history ws) None.
Proof.
  intros Hsorted. split; [|split; [|split]].
  - rewrite closed_means_run_ticks. cbn [initial_machine log vars closed_means
      flat_map app]. apply window_means_sorted, Hsorted.
  - rewrite closed_means_main_finish. apply window_means_sorted, Hsorted.
  - apply stored_means_sorted, Hsorted.
  - rewrite vars_run_ticks_globals. cbn [initial_machine vars].
    rewrite last_stored_mean, (stored_means_sorted ws Hsorted). reflexivity.
Qed.

(** The theorem at work on three windows: the samples 10, 20 and 60 at
    1.0 s, whose mean 30 is none of them, then 50 and 70 at 2.0 s, then one
    record at 3.5 s whose window stays open. *)
Lemma one_mean_per_timestamp_change_witness :
  let ws := [tick_at station0 1.0 10.0; tick_at station0 1.0 20.0;
             tick_at station0 1.0 60.0; tick_at station0 2.0 50.0;
             tick_at station0 2.0 70.0; tick_at station0 3.5 5.0] in
  non_decreasing (map now_sec ws)
  /\ closed_means (log (snd (main {| ticks := ws; ending := Finish |})))
     = [30.0; 60.0]
  /\ stored_means ws initial_globals
     = [None; None; None; Some 30.0; Some 30.0; Some 60.0]
  /\ prev_mean_dl (vars (run_ticks ws initial_machine)) = Some 60.0.
Proof.
  cbv zeta.
  assert (H : non_decreasing
                (map now_sec
                   [tick_at station0 1.0 10.0; tick_at station0 1.0 20.0;
                    tick_at station0 1.0 60.0; tick_at station0 2.0 50.0;
                    tick_at station0 2.0 70.0; tick_at station0 3.5 5.0])).
  { simpl. repeat split; reflexivity. }
  split; [exact H|].
  destruct (one_mean_per_timestamp_change _ H) as [_ [Hmain [Hstored Hlast]]].
  split; [rewrite Hmain; reflexivity|].
  split; [rewrite Hstored; reflexivity|].
  rewrite Hlast. reflexivity.
Defined.

(** ** Empty windows and timestamps that go back *)

Lemma ltb_ne (x y : float) : (x <? y) = true -> Py.ne x y = true.
Proof.
  intros H. unfold Py.ne. rewrite (FloatOrder.ltb_not_eqb _ _ H). reflexivity.
Qed.

(** C8, as the code behaves.  Neither condition interrupts the loop: a
    completed handshake always runs the body to its end, and a run that ends
    with the finish signal exits with code 0 whatever the timestamps were.
    A window that closes without samples leaves the known mean as it was,
    and the directive is computed from it.  A timestamp that goes back is a
    timestamp change like any other: the open window closes, its mean
    replaces the known mean, and the directive is computed from that new
    mean. *)
Theorem odd_windows_are_not_fatal (w : Cpp2PyStruct) (m : Machine) :
  let g := vars m in
  let p := process w g in
  iteration (tick_handshake w) m = (Ok true, after_tick w m)
  /\ (forall ws, fst (main {| ticks := ws; ending := Finish |}) = ExitCode 0)
  /\ (current_dl_values g = [] ->
      p_out p = []
      /\ prev_mean_dl (p_vars p) = prev_mean_dl g
      /\ p_set_ApTx p = adaptive_ApTx (prev_mean_dl g))
  /\ ((now_sec w <? prev_now_sec g) = true ->
      current_dl_values g <> [] ->
      prev_mean_dl (p_vars p) = Some (Py.mean (current_dl_values g))
      /\ p_set_ApTx p = adaptive_ApTx (Some (Py.mean (current_dl_values g)))
      /\ prev_now_sec (p_vars p) = now_sec w
      /\ current_dl_values (p_vars p) = [dl_tp w]).
Proof.
  cbv zeta. split; [apply iteration_tick|]. split.
  - intros ws. rewrite main_run. reflexivity.
  - split.
    + intros Hempty.
      rewrite process_set_ApTx, process_out, process_mean.
      unfold closes_window. rewrite Hempty. cbn [Py.truthy].
      rewrite andb_false_r. repeat split.
    + intros Hback Hnonempty.
      rewrite process_set_ApTx, process_mean, process_prev_now_sec, process_current.
      unfold closes_window.
      rewrite (ltb_ne _ _ Hback), (truthy_true _ Hnonempty). repeat split.
Qed.

(** The theorem on a run: the third record of [scenario_regress] goes back
    from 2.0 to 1.0 and closes the window of 2.0 with mean 50.0. *)
Lemma odd_windows_are_not_fatal_witness :
  let w := tick_at station0 1.0 0.0 in
  let m := run_ticks [tick_at station0 1.0 10.0; tick_at station0 2.0 50.0]
             initial_machine in
  (now_sec w <? prev_now_sec (vars m)) = true
  /\ prev_mean_dl (p_vars (process w (vars m))) = Some 50.0
  /\ p_set_ApTx (process w (vars m)) = 15.0.
Proof.
  cbv zeta.
  pose proof (odd_windows_are_not_fatal (tick_at station0 1.0 0.0)
                (run_ticks [tick_at station0 1.0 10.0; tick_at station0 2.0 50.0]
                   initial_machine)) as H.
  cbv zeta in H. destruct H as [_ [_ [_ H]]].
  assert (Hback : (now_sec (tick_at station0 1.0 0.0)
                   <? prev_now_sec (vars (run_ticks
                        [tick_at station0 1.0 10.0; tick_at station0 2.0 50.0]
                        initial_machine))) = true) by reflexivity.
  split; [exact Hback|].
  destruct (H Hback ltac:(discriminate)) as [Hmean [Hset _]].
  split.
  - rewrite Hmean. reflexivity.
  - rewrite Hset. reflexivity.
Defined.

(** C8 as stated fails for a timestamp that goes back: in
    [scenario_regress] the mean known before the third record is 10.0,
    which would give 27.0, but the directive is computed from the mean 50.0
    of the window just closed and is 15.0. *)
Lemma regress_does_not_keep_known_mean :
  let w := tick_at station0 1.0 0.0 in
  let m := run_ticks [tick_at station0 1.0 10.0; tick_at station0 2.0 50.0]
             initial_machine in
  (now_sec w <? prev_now_sec (vars m)) = true
  /\ prev_mean_dl (vars m) = Some 10.0
  /\ adaptive_ApTx (prev_mean_dl (vars m)) = 27.0
  /\ written (log (snd (main scenario_regress))) = [20.0; 27.0; 15.0]
  /\ p_set_ApTx (process w (vars m)) <> adaptive_ApTx (prev_mean_dl (vars m)).
Proof.
  cbv zeta. repeat split; try reflexivity.
  intros H. apply (f_equal (fun x => x =? 27.0)) in H.
  vm_compute in H. discriminate H.
Qed.

(** ** More about runs: composition, bounds, the default *)

Lemma globals_after_app (ws1 ws2 : list Cpp2PyStruct) (g : Globals) :
  globals_after (ws1 ++ ws2) g = globals_after ws2 (globals_after ws1 g).
Proof.
  revert g. induction ws1 as [|w ws1 IH]; intros g; [reflexivity|].
  simpl. apply IH.
Qed.

Lemma rows_of_app (ws1 ws2 : list Cpp2PyStruct) (g : Globals) :
  rows_of (ws1 ++ ws2) g = rows_of ws1 g ++ rows_of ws2 (globals_after ws1 g).
Proof.
  revert g. induction ws1 as [|w ws1 IH]; intros g; [reflexivity|].
  simpl. rewrite IH. reflexivity.
Qed.

Lemma map_fst_rows_of (ws : list Cpp2PyStruct) (g : Globals) :
  map fst (rows_of ws g) = ws.
Proof.
  revert g. induction ws as [|w ws IH]; intros g; [reflexivity|].
  simpl. rewrite IH. reflexivity.
Qed.

Lemma adaptive_ApTx_in_range (o : option float) :
  in_range 1.0 30.0 (adaptive_ApTx o).
Proof.
  destruct o as [m|].
  - apply max_min_in_range.
  - split; reflexivity.
Qed.

Lemma rows_of_in_range (ws : list Cpp2PyStruct) (g : Globals) :
  Forall (fun r => in_range 1.0 30.0 (snd r)) (rows_of ws g).
Proof.
  revert g. induction ws as [|w ws IH]; intros g; simpl; constructor.
  - cbn [snd]. rewrite process_set_ApTx. apply adaptive_ApTx_in_range.
  - apply IH.
Qed.

Lemma collected_in_range (s : Script) :
  Forall (fun r => in_range 1.0 30.0 (snd r)) (collected s).
Proof.
  unfold collected. apply Forall_app. split; [apply rows_of_in_range|].
  destruct (ending s) as [|c e w]; [constructor|].
  destruct (after_process c); [|apply Forall_nil].
  apply Forall_cons; [|apply Forall_nil].
  cbn [snd]. rewrite process_set_ApTx. apply adaptive_ApTx_in_range.
Qed.

(** X1.  Whatever the simulator sends (any floats, [nan] and infinities
    included, any timestamps, any ending), every value assigned to
    [set_ApTx] and every [set_ApTx] stored in a row lies in
    [[1.0, 30.0]]. *)
Theorem every_directive_in_range (s : Script) :
  let m := snd (main s) in
  Forall (in_range 1.0 30.0) (written (log m))
  /\ Forall (fun cell => exists v, cell = Some (PyFloat v) /\ in_range 1.0 30.0 v)
            (recorded (data_store (vars m))).
Proof.
  cbv zeta. rewrite main_run. cbn [snd vars log].
  rewrite written_app, written_closing, app_nil_r.
  rewrite data_store_at_exit, recorded_rows, written_at_exit.
  pose proof (collected_in_range s) as Hc. split.
  - apply Forall_app. split.
    + apply Forall_map.
      apply (Forall_impl _ (P := fun r : Cpp2PyStruct * float => in_range 1.0 30.0 (snd r)));
        [auto|apply rows_of_in_range].
    + destruct (ending s) as [|c e w]; [constructor|].
      destruct c; try apply Forall_nil.
      apply Forall_cons; [|apply Forall_nil].
      rewrite process_set_ApTx. apply adaptive_ApTx_in_range.
  - apply Forall_map.
    apply (Forall_impl _ (P := fun r : Cpp2PyStruct * float => in_range 1.0 30.0 (snd r)));
      [|exact Hc].
    intros r Hr. exists (snd r). split; [reflexivity|exact Hr].
Qed.

(** The state in which no window has closed yet and every sample in the
    open window carries timestamp [t]. *)
Lemma default_state_kept (t : float) (w : Cpp2PyStruct) (g : Globals) :
  (now_sec w =? t) = true ->
  prev_mean_dl g = None ->
  current_dl_values g = [] \/ (prev_now_sec g =? t) = true ->
  let g' := p_vars (process w g) in
  p_out (process w g) = []
  /\ p_set_ApTx (process w g) = 20.0
  /\ prev_mean_dl g' = None
  /\ (prev_now_sec g' =? t) = true.
Proof.
  intros Hw Hmean Hstate. cbv zeta.
  rewrite process_set_ApTx, process_out, process_mean, process_prev_now_sec.
  unfold closes_window.
  destruct (Py.ne (now_sec w) (prev_now_sec g)) eqn:Hne.
  - destruct Hstate as [Hempty|Hprev].
    + rewrite Hempty, Hmean. cbn. repeat split. exact Hw.
    + apply negb_true_iff in Hne.
      rewrite (eqb_congr_r _ _ _ Hprev), Hw in Hne. discriminate Hne.
  - cbn [andb]. rewrite Hmean. repeat split.
    apply negb_false_iff in Hne.
    rewrite FloatOrder.eqb_sym in Hne.
    exact (FloatOrder.eqb_trans _ _ _ Hne Hw).
Qed.

Lemma rows_of_default (t : float) (ws : list Cpp2PyStruct) (g : Globals) :
  Forall (fun w => (now_sec w =? t) = true) ws ->
  prev_mean_dl g = None ->
  current_dl_values g = [] \/ (prev_now_sec g =? t) = true ->
  map snd (rows_of ws g) = repeat 20.0 (List.length ws)
  /\ window_means ws g = []
  /\ prev_mean_dl (globals_after ws g) = None.
Proof.
  intros Hws. revert g.
  induction Hws as [|w ws Hw _ IH]; intros g Hmean Hstate.
  - repeat split. exact Hmean.
  - destruct (default_state_kept t w g Hw Hmean Hstate) as [Hout [Hset [Hmean' Hprev']]].
    destruct (IH _ Hmean' (or_intror Hprev')) as [A [B C]].
    cbn [rows_of map snd window_means globals_after List.length repeat].
    rewrite A, B, Hout, Hset. repeat split. exact C.
Qed.

(** X2.  As long as the timestamp has not changed, the default stands: if
    all records of a run carry the same timestamp [t], no window closes,
    the known mean stays absent and every directive written is [20.0],
    however many records there are and whatever their samples. *)
Theorem default_until_first_change (t : float) (ws : list Cpp2PyStruct) :
  Forall (fun w => (now_sec w =? t) = true) ws ->
  let m := snd (main {| ticks := ws; ending := Finish |}) in
  written (log m) = repeat 20.0 (List.length ws)
  /\ closed_means (log m) = []
  /\ prev_mean_dl (vars m) = None.
Proof.
  intros Hws. cbv zeta.
  destruct (rows_of_default t ws initial_globals Hws eq_refl (or_introl eq_refl))
    as [A [B C]].
  rewrite closed_means_main_finish.
  rewrite main_run. cbn [snd vars log].
  rewrite written_app, written_closing, app_nil_r, written_at_exit.
  unfold at_exit. cbn [ticks ending vars].
  rewrite vars_run_ticks_globals. cbn [initial_machine vars].
  rewrite A, B, app_nil_r. repeat split. exact C.
Qed.

(** The theorem on five records at timestamp 0.5. *)
Lemma default_until_first_change_witness :
  let ws := [tick_at station0 0.5 3.0; tick_at station0 0.5 90.0;
             tick_at station0 0.5 0.0; tick_at station0 0.5 250.0;
             tick_at station0 0.5 7.0] in
  Forall (fun w => (now_sec w =? 0.5) = true) ws
  /\ written (log (snd (main {| ticks := ws; ending := Finish |})))
     = [20.0; 20.0; 20.0; 20.0; 20.0].
Proof.
  cbv zeta.
  assert (H : Forall (fun w => (now_sec w =? 0.5) = true)
                [tick_at station0 0.5 3.0; tick_at station0 0.5 90.0;
                 tick_at station0 0.5 0.0; tick_at station0 0.5 250.0;
                 tick_at station0 0.5 7.0])
    by (repeat constructor).
  split; [exact H|].
  exact (proj1 (default_until_first_change 0.5 _ H)).
Defined.

(** X3.  Two consecutive records with equal timestamps get the same
    directive, from any state: the second one changes neither the window
    timestamp nor the known mean, and no mean is reported for it. *)
Theorem same_timestamp_same_directive (w1 w2 : Cpp2PyStruct) (g : Globals) :
  (now_sec w1 =? now_sec w2) = true ->
  let g1 := p_vars (process w1 g) in
  p_set_ApTx (process w2 g1) = p_set_ApTx (process w1 g)
  /\ p_out (process w2 g1) = []
  /\ prev_mean_dl (p_vars (process w2 g1)) = prev_mean_dl g1
  /\ current_dl_values (p_vars (process w2 g1))
     = current_dl_values g1 ++ [dl_tp w2].
Proof.
  intros H12. cbv zeta.
  assert (Hsame : Py.ne (now_sec w2) (prev_now_sec (p_vars (process w1 g))) = false).
  { apply negb_false_iff. rewrite process_prev_now_sec.
    rewrite FloatOrder.eqb_sym in H12.
    destruct (Py.ne (now_sec w1) (prev_now_sec g)) eqn:Hne; [exact H12|].
    apply negb_false_iff in Hne.
    exact (FloatOrder.eqb_trans _ _ _ H12 Hne). }
  rewrite (process_set_ApTx w2), (process_set_ApTx w1), process_out,
    (process_mean w2), (process_current w2).
  unfold closes_window. rewrite Hsame. cbn [andb]. repeat split.
Qed.

(** The theorem on two stations reporting at timestamp 2.0 after a window
    with mean 10.0 has closed. *)
Lemma same_timestamp_same_directive_witness :
  let g := vars (run_ticks [tick_at station0 1.0 10.0] initial_machine) in
  let w1 := tick_at station0 2.0 50.0 in
  let w2 := tick_at station0 2.0 70.0 in
  (now_sec w1 =? now_sec w2) = true
  /\ p_set_ApTx (process w1 g) = 27.0
  /\ p_set_ApTx (process w2 (p_vars (process w1 g))) = p_set_ApTx (process w1 g).
Proof.
  cbv zeta.
  assert (H : (now_sec (tick_at station0 2.0 50.0)
               =? now_sec (tick_at station0 2.0 70.0)) = true) by reflexivity.
  split; [exact H|]. split; [reflexivity|].
  exact (proj1 (same_timestamp_same_directive
                  (tick_at station0 2.0 50.0) (tick_at station0 2.0 70.0)
                  (vars (run_ticks [tick_at station0 1.0 10.0] initial_machine)) H)).
Defined.

(** ** [nan] samples *)

Lemma not_number_nan (x : float) : (x =? x) = false -> x = nan.
Proof.
  intros H. apply Prim2SF_inj. change (Prim2SF nan) with S754_nan.
  destruct (Prim2SF x) as [s|s| |s m e] eqn:E; [| |reflexivity|];
    exfalso;
    assert (Hn : is_number x)
      by (apply FloatArith.is_number_spec; rewrite E; discriminate);
    unfold is_number in Hn; rewrite Hn in H; discriminate H.
Qed.

Lemma add_nan_l (y : float) : nan + y = nan.
Proof.
  apply Prim2SF_inj. rewrite add_spec. reflexivity.
Qed.

Lemma add_nan_r (x : float) : x + nan = nan.
Proof.
  apply Prim2SF_inj. rewrite add_spec.
  change (Prim2SF nan) with S754_nan. destruct (Prim2SF x); reflexivity.
Qed.

Lemma div_nan_l (y : float) : nan / y = nan.
Proof.
  apply Prim2SF_inj. rewrite div_spec. reflexivity.
Qed.

Lemma fold_add_from_nan (l : list float) : fold_left PrimFloat.add l nan = nan.
Proof.
  induction l as [|x l IH]; [reflexivity|]. simpl. rewrite add_nan_l. exact IH.
Qed.

(** One [nan] item makes [sum] a [nan], wherever it stands. *)
Lemma sum_nan (l : list float) (acc : float) :
  Exists (fun x => (x =? x) = false) l -> fold_left PrimFloat.add l acc = nan.
Proof.
  intros H. revert acc. induction H as [x l Hx|x l _ IH]; intros acc; simpl.
  - rewrite (not_number_nan x Hx), add_nan_r. apply fold_add_from_nan.
  - apply IH.
Qed.

Lemma mean_nan (l : list float) :
  Exists (fun x => (x =? x) = false) l -> Py.mean l = nan.
Proof.
  intros H. unfold Py.mean, Py.sum. rewrite (sum_nan l 0 H). apply div_nan_l.
Qed.

(** X4.  A [nan] sample does not reach the simulator as a [nan]
    directive: when a window that holds a [nan] sample closes, its mean is
    [nan] and the directive computed from it is the upper bound [30.0],
    because [min(30.0, nan)] keeps its first argument. *)
Theorem nan_sample_gives_full_power (w : Cpp2PyStruct) (g : Globals) :
  closes_window w g = true ->
  Exists (fun x => (x =? x) = false) (current_dl_values g) ->
  prev_mean_dl (p_vars (process w g)) = Some nan
  /\ p_set_ApTx (process w g) = 30.0.
Proof.
  intros Hclose Hnan.
  rewrite process_set_ApTx, process_mean, Hclose, (mean_nan _ Hnan).
  split; reflexivity.
Qed.

(** The theorem on a window of three samples, the second of them [nan]. *)
Lemma nan_sample_gives_full_power_witness :
  let g := globals_after [tick_at station0 1.0 10.0; tick_at station0 1.0 nan;
                          tick_at station0 1.0 30.0] initial_globals in
  let w := tick_at station0 2.0 50.0 in
  closes_window w g = true
  /\ Exists (fun x => (x =? x) = false) (current_dl_values g)
  /\ p_set_ApTx (process w g) = 30.0.
Proof.
  cbv zeta.
  assert (Hc : closes_window (tick_at station0 2.0 50.0)
                 (globals_after [tick_at station0 1.0 10.0; tick_at station0 1.0 nan;
                                 tick_at station0 1.0 30.0] initial_globals) = true)
    by reflexivity.
  assert (Hn : Exists (fun x => (x =? x) = false)
                 (current_dl_values
                    (globals_after [tick_at station0 1.0 10.0; tick_at station0 1.0 nan;
                                    tick_at station0 1.0 30.0] initial_globals))).
  { apply Exists_cons_tl, Exists_cons_hd. reflexivity. }
  split; [exact Hc|]. split; [exact Hn|].
  exact (proj2 (nan_sample_gives_full_power
                  (tick_at station0 2.0 50.0)
                  (globals_after [tick_at station0 1.0 10.0; tick_at station0 1.0 nan;
                                  tick_at station0 1.0 30.0] initial_globals) Hc Hn)).
Defined.

(** ** The open window, for any order of timestamps *)

Lemma globals_after_snoc (ws : list Cpp2PyStruct) (w : Cpp2PyStruct) (g : Globals) :
  globals_after (ws ++ [w]) g = p_vars (process w (globals_after ws g)).
Proof. rewrite globals_after_app. reflexivity. Qed.

(** X5.  After any records, in any order of timestamps, the open window
    holds the samples of a trailing block of the records processed, in
    order; it is non-empty as soon as one record was processed; and every
    record of the block carries the window timestamp -- unless the block is
    a single record whose timestamp is [nan], which equals nothing. *)
Theorem open_window_is_trailing_block (ws : list Cpp2PyStruct) :
  let g := globals_after ws initial_globals in
  exists pre win,
    ws = pre ++ win
    /\ current_dl_values g = map dl_tp win
    /\ (ws <> [] -> win <> [])
    /\ (Forall (fun w => (now_sec w =? prev_now_sec g) = true) win
        \/ exists w, win = [w] /\ (now_sec w =? now_sec w) = false
                     /\ prev_now_sec g = now_sec w).
Proof.
  cbv zeta. induction ws as [|w ws IH] using rev_ind.
  - exists [], []. repeat split; try reflexivity.
    + intros H. congruence.
    + left. constructor.
  - destruct IH as [pre [win [Hsplit [Hcur [Hne Hts]]]]].
    rewrite globals_after_snoc.
    set (g := globals_after ws initial_globals) in *.
    rewrite process_current, process_prev_now_sec.
    destruct (Py.ne (now_sec w) (prev_now_sec g)) eqn:Hchange.
    + (* the window restarts with this record alone *)
      exists ws, [w]. repeat split; try reflexivity.
      * intros _. discriminate.
      * destruct (now_sec w =? now_sec w) eqn:Hnum.
        -- left. constructor; [exact Hnum|constructor].
        -- right. exists w. repeat split. exact Hnum.
    + (* the record joins the window *)
      apply negb_false_iff in Hchange.
      exists pre, (win ++ [w]). repeat split.
      * rewrite Hsplit, app_assoc. reflexivity.
      * rewrite Hcur, map_app. reflexivity.
      * intros _ E. apply app_eq_nil in E as [_ E]. discriminate E.
      * left. apply Forall_app. split.
        -- destruct Hts as [Hall|[w0 [_ [Hnan Hprev]]]]; [exact Hall|].
           exfalso.
           pose proof (FloatOrder.eqb_leb _ _ Hchange) as [_ Hle].
           pose proof (FloatOrder.leb_refl_l _ _ Hle) as Hnum.
           rewrite Hprev, Hnan in Hnum. discriminate Hnum.
        -- constructor; [exact Hchange|constructor].
Qed.

(** ** What the store holds *)

Lemma rows_match_ticks (rs : list (Cpp2PyStruct * float)) :
  Forall2 (fun d w => exists v, d = data_point w v)
          (map row_dict rs) (map fst rs).
Proof.
  induction rs as [|[w v] rs IH]; simpl; constructor; [|exact IH].
  exists v. reflexivity.
Qed.

Lemma map_fst_collected (s : Script) : map fst (collected s) = stored_ticks s.
Proof.
  unfold collected, stored_ticks. rewrite map_app, map_fst_rows_of. f_equal.
  destruct (ending s) as [|c e w]; [reflexivity|].
  destruct (after_process c); reflexivity.
Qed.

(** X6.  The store holds one row per record processed, in arrival order,
    and each row is the [data_point] of its own record: the eight measured
    fields are stored as read.  A record is processed when its iteration
    completed, or raised only after the append. *)
Theorem store_follows_arrival_order (s : Script) :
  Forall2 (fun d w => exists v, d = data_point w v)
          (data_store (vars (snd (main s)))) (stored_ticks s)
  /\ List.length (data_store (vars (snd (main s))))
     = (List.length (ticks s)
        + match ending s with
          | Finish => 0
          | Fault c _ _ => if after_process c then 1 else 0
          end)%nat.
Proof.
  destruct (store_and_exports s) as [Hds _]. rewrite Hds. split.
  - rewrite <- map_fst_collected. apply rows_match_ticks.
  - rewrite length_map. unfold collected. rewrite length_app, length_rows_of.
    f_equal. destruct (ending s) as [|c e w]; [reflexivity|].
    destruct (after_process c); reflexivity.
Qed.

(** X7.  The store only grows at its end, and a row depends on the past
    only: the rows stored for the first records of a run are the rows of
    the run that stops after them, whatever follows and however the longer
    run ends. *)
Theorem earlier_rows_are_final (ws1 ws2 : list Cpp2PyStruct) (e : Ending) :
  firstn (List.length ws1)
    (data_store (vars (snd (main {| ticks := ws1 ++ ws2; ending := e |}))))
  = data_store (vars (snd (main {| ticks := ws1; ending := Finish |}))).
Proof.
  destruct (store_and_exports {| ticks := ws1 ++ ws2; ending := e |}) as [H1 _].
  destruct (store_and_exports {| ticks := ws1; ending := Finish |}) as [H2 _].
  rewrite H1, H2. unfold collected. cbn [ticks ending].
  rewrite app_nil_r, rows_of_app, <- app_assoc, map_app.
  rewrite <- (length_rows_of ws1 initial_globals).
  rewrite <- (length_map row_dict (rows_of ws1 initial_globals)).
  apply firstn_length_app.
Qed.

(** ** After the loop *)

Lemma interface_calls_closing (s : Script) (ds : list Dict) :
  existsb is_interface_call (closing_events s ds) = false.
Proof.
  unfold closing_events, export_events.
  destruct (ending s) as [|c e w]; [|destruct (is_Exception e)];
    destruct (Py.truthy ds); reflexivity.
Qed.

Lemma filter_DelExp_out (w : Cpp2PyStruct) (g : Globals) :
  filter is_DelExp (p_out (process w g)) = [].
Proof. rewrite process_out. destruct (closes_window w g); reflexivity. Qed.

Lemma filter_DelExp_run_ticks (ws : list Cpp2PyStruct) (m : Machine) :
  filter is_DelExp (log (run_ticks ws m)) = filter is_DelExp (log m).
Proof.
  revert m. induction ws as [|w ws IH]; intros m; [reflexivity|].
  simpl. rewrite IH. unfold after_tick, tick_events. cbn [log].
  rewrite !filter_app, filter_DelExp_out. cbn. apply app_nil_r.
Qed.

Lemma filter_DelExp_at_exit (s : Script) :
  filter is_DelExp (log (at_exit s)) = [].
Proof.
  unfold at_exit. destruct (ending s) as [|c e w]; cbn [log].
  - rewrite filter_app, filter_DelExp_run_ticks. reflexivity.
  - unfold after_fault. cbn [log].
    rewrite filter_app, filter_DelExp_run_ticks. cbn [initial_machine log filter app].
    destruct c; cbn [fault_events]; rewrite ?filter_app, ?filter_DelExp_out;
      reflexivity.
Qed.

Lemma filter_DelExp_closing (s : Script) (ds : list Dict) :
  filter is_DelExp (closing_events s ds) = [EvDelExp].
Proof.
  unfold closing_events, export_events.
  destruct (ending s) as [|c e w]; [|destruct (is_Exception e)];
    destruct (Py.truthy ds); reflexivity.
Qed.

Lemma last_closing (s : Script) (ds : list Dict) :
  exists pre, closing_events s ds = pre ++ [EvDelExp].
Proof.
  unfold closing_events.
  destruct (ending s) as [|c e w]; [|destruct (is_Exception e)].
  - exists (export_events ds). reflexivity.
  - exists (export_events ds ++ export_events ds). rewrite <- app_assoc. reflexivity.
  - exists (export_events ds). reflexivity.
Qed.

(** X8.  On every exit path the experiment is released exactly once, as
    the very last action, and once the first export has happened the
    message interface is not called again: the log splits into the loop's
    part, which exports nothing, and a closing part without interface
    calls that ends with [del exp]. *)
Theorem experiment_released_once_at_the_end (s : Script) :
  let l := log (snd (main s)) in
  filter is_DelExp l = [EvDelExp]
  /\ last l EvPyRecvBegin = EvDelExp
  /\ exists inside closing,
       l = inside ++ closing
       /\ csv_exports inside = []
       /\ existsb is_interface_call closing = false.
Proof.
  cbv zeta. rewrite main_run. cbn [snd log].
  set (ds := data_store (vars (at_exit s))).
  split; [|split].
  - rewrite filter_app, filter_DelExp_at_exit, filter_DelExp_closing. reflexivity.
  - destruct (last_closing s ds) as [pre Hpre].
    rewrite Hpre, app_assoc. apply last_last.
  - exists (log (at_exit s)), (closing_events s ds).
    split; [reflexivity|]. split.
    + apply csv_exports_at_exit.
    + apply interface_calls_closing.
Qed.

(** X9.  The exit status depends on how the loop was left and on nothing
    else: 0 after the finish signal; 1 after an [Exception] raised by any
    interface call at any point of the iteration, with or without rows
    collected; a [KeyboardInterrupt] is not caught and leaves the process
    uncaught after the [finally] block.  A [SystemExit] raised inside the
    loop is not caught either, and the status is then the low eight bits of
    its code, or 255 when the code does not fit a C [long]. *)
Theorem exit_status_by_ending (s : Script) :
  fst (main s)
  = match ending s with
    | Finish => ExitCode 0
    | Fault _ PyException _ => ExitCode 1
    | Fault _ KeyboardInterrupt _ => Uncaught KeyboardInterrupt
    | Fault _ (SystemExit code) _ =>
        ExitCode (if ((- 2 ^ 63 <=? code) && (code <? 2 ^ 63))%Z
                  then (code mod 256)%Z
                  else 255%Z)
    end.
Proof.
  rewrite main_run. cbn [fst]. unfold exit_of.
  destruct (ending s) as [|c e w]; [reflexivity|].
  destruct e; reflexivity.
Qed.

(** Codes around the bounds: 256 wraps to 0, -1 to 255, and a code of
    2^63 no longer fits. *)
Lemma exit_status_by_ending_witness :
  map (fun code =>
         fst (main {| ticks := []; ending := Fault At_PyRecvBegin (SystemExit code) station0 |}))
      [1; 255; 256; 257; -1; 2 ^ 63 - 1; 2 ^ 63; - 2 ^ 63]%Z
  = map ExitCode [1; 255; 0; 1; 255; 255; 255; 0]%Z.
Proof.
  cbn [map].
  rewrite !exit_status_by_ending. reflexivity.
Defined.

(** ** The handshake *)

Lemma phase_run_app (p : Phase) (l1 l2 : list Event) :
  phase_run p (l1 ++ l2)
  = match phase_run p l1 with
    | Some p' => phase_run p' l2
    | None => None
    end.
Proof.
  revert p. induction l1 as [|ev l1 IH]; intros p; [reflexivity|].
  simpl. destruct (phase_step p ev) as [p'|]; [apply IH|reflexivity].
Qed.

Lemma phase_run_out (p : Phase) (w : Cpp2PyStruct) (g : Globals) :
  phase_run p (p_out (process w g)) = Some p.
Proof.
  rewrite process_out. destruct (closes_window w g); destruct p; reflexivity.
Qed.

Lemma phase_run_tick (w : Cpp2PyStruct) (g : Globals) :
  phase_run AwaitRead (tick_events w (process w g)) = Some AwaitRead.
Proof.
  pose proof (phase_run_out AwaitWrite w g) as Hout.
  unfold tick_events. set (p := process w g) in *.
  rewrite phase_run_app. cbn [phase_run phase_step].
  rewrite phase_run_app, Hout. reflexivity.
Qed.

Lemma phase_run_ticks (ws : list Cpp2PyStruct) (m : Machine) :
  phase_run AwaitRead (log m) = Some AwaitRead ->
  phase_run AwaitRead (log (run_ticks ws m)) = Some AwaitRead.
Proof.
  revert m. induction ws as [|w ws IH]; intros m Hm; [exact Hm|].
  simpl. apply IH. unfold after_tick. cbn [log].
  rewrite phase_run_app, Hm. apply phase_run_tick.
Qed.

Lemma phase_run_closing (p : Phase) (s : Script) (ds : list Dict) :
  phase_run p (closing_events s ds) = Some p.
Proof.
  unfold closing_events, export_events.
  destruct (ending s) as [|c e w]; [|destruct (is_Exception e)];
    destruct (Py.truthy ds); destruct p; reflexivity.
Qed.

(** X10.  Every run keeps the handshake discipline of the interface: the
    read and the write phase alternate and never overlap, the struct and
    the finished flag are read inside the read phase only, [set_ApTx] is
    assigned inside the write phase only, and after each completed
    iteration both phases are closed.  The run ends in the phase its ending
    fixes; after the finish signal this is the read phase, which is left
    open. *)
Theorem handshake_discipline (s : Script) :
  phase_run AwaitRead (log (run_ticks (ticks s) initial_machine)) = Some AwaitRead
  /\ phase_run AwaitRead (log (snd (main s))) = Some (phase_at_end (ending s)).
Proof.
  assert (Hticks : phase_run AwaitRead (log (run_ticks (ticks s) initial_machine))
                   = Some AwaitRead)
    by (apply phase_run_ticks; reflexivity).
  split; [exact Hticks|].
  rewrite main_run. cbn [snd log].
  rewrite phase_run_app.
  assert (Hexit : phase_run AwaitRead (log (at_exit s))
                  = Some (phase_at_end (ending s))).
  { unfold at_exit. destruct (ending s) as [|c e w]; cbn [log].
    - rewrite phase_run_app, Hticks. reflexivity.
    - unfold after_fault. cbn [log]. rewrite phase_run_app, Hticks.
      pose proof (phase_run_out AwaitWrite w
                    (vars (run_ticks (ticks s) initial_machine))) as Hout.
      set (p := process w (vars (run_ticks (ticks s) initial_machine))) in *.
      destruct c; cbn [fault_events phase_at_end]; try reflexivity;
        rewrite phase_run_app; cbn [phase_run phase_step];
        rewrite ?phase_run_app, Hout; reflexivity. }
  rewrite Hexit. apply phase_run_closing.
Qed.

(** ** Columns of the exported frame *)

Lemma column_index_absent (c : string) (cols : list string) :
  ~ In c cols -> column_index c cols = None.
Proof.
  induction cols as [|c' cols IH]; intros Hnot; [reflexivity|].
  simpl. destruct (String.eqb_spec c c') as [->|Hne].
  - exfalso. apply Hnot. left. reflexivity.
  - rewrite IH; [reflexivity|]. intros Hin. apply Hnot. right. exact Hin.
Qed.

Lemma df_getitem_rows (rs : list (Cpp2PyStruct * float)) (k : string) :
  In k csv_columns ->
  df_getitem {| columns := csv_columns; rows := map csv_row rs |} k
  = Some (map (dict_get k) (map row_dict rs)).
Proof.
  intros Hk. unfold df_getitem. cbn [columns rows].
  repeat (destruct Hk as [<-|Hk];
          [cbn; f_equal; rewrite !map_map; apply map_ext; intros [w v]; reflexivity|]).
  destruct Hk.
Qed.

(** X11.  In every exported frame, indexing by a column name gives back
    what the loop stored under that key, row by row: [df[k]] is the list
    of [data_point[k]] over the store for each of the nine keys, and any
    other name is a [KeyError]. *)
Theorem column_lookup_returns_stored_values (s : Script) :
  let m := snd (main s) in
  Forall (fun df =>
            forall k : string,
              (In k csv_columns ->
               df_getitem df k = Some (map (dict_get k) (data_store (vars m))))
              /\ (~ In k csv_columns -> df_getitem df k = None))
         (csv_exports (log m)).
Proof.
  cbv zeta. destruct (store_and_exports s) as [Hds Hex]. rewrite Hex, Hds.
  unfold exports_of. destruct (collected s) as [|r rs] eqn:E; [constructor|].
  rewrite <- E. assert (Hne : collected s <> []) by (rewrite E; discriminate).
  rewrite (pd_DataFrame_rows _ Hne).
  assert (Hone : forall k : string,
             (In k csv_columns ->
              df_getitem {| columns := csv_columns; rows := map csv_row (collected s) |} k
              = Some (map (dict_get k) (map row_dict (collected s))))
             /\ (~ In k csv_columns ->
                 df_getitem {| columns := csv_columns;
                               rows := map csv_row (collected s) |} k = None)).
  { intros k. split.
    - apply df_getitem_rows.
    - intros Hnot. unfold df_getitem. cbn [columns].
      rewrite (column_index_absent _ _ Hnot). reflexivity. }
  destruct (ending s) as [|c e w]; [|destruct (is_Exception e)];
    repeat (apply Forall_cons; [exact Hone|]); apply Forall_nil.
Qed.

(** ** The animation: frames partition the rows *)

Section VizFrames.

Import FloatOrder.

Lemma same_key_refl (x : float) : Viz.same_key x x = true.
Proof. unfold Viz.same_key. destruct (x =? x); reflexivity. Qed.

Lemma same_key_number (x y : float) :
  (x =? x) = true -> Viz.same_key x y = (x =? y).
Proof.
  intros H. unfold Viz.same_key. rewrite H. cbn. apply orb_false_r.
Qed.

Lemma eqb_same_key (x y : float) : (x =? y) = true -> Viz.same_key x y = true.
Proof. intros H. unfold Viz.same_key. rewrite H. reflexivity. Qed.

(** The keys [unique_from] returns are new with respect to [seen] and
    pairwise different. *)
Lemma unique_from_fresh (l seen : list float) :
  Forall (fun x => existsb (Viz.same_key x) seen = false) (Viz.unique_from seen l)
  /\ ForallOrdPairs (fun a b => Viz.same_key b a = false) (Viz.unique_from seen l).
Proof.
  revert seen. induction l as [|x l IH]; intros seen; simpl.
  - split; constructor.
  - destruct (existsb (Viz.same_key x) seen) eqn:E.
    + apply IH.
    + destruct (IH (x :: seen)) as [Hnew Hpairs]. split.
      * constructor; [exact E|].
        apply (Forall_impl _ (P := fun y => existsb (Viz.same_key y) (x :: seen) = false));
          [|exact Hnew].
        intros y Hy. cbn in Hy. apply orb_false_iff in Hy. apply Hy.
      * constructor; [|exact Hpairs].
        apply (Forall_impl _ (P := fun y => existsb (Viz.same_key y) (x :: seen) = false));
          [|exact Hnew].
        intros y Hy. cbn in Hy. apply orb_false_iff in Hy. apply Hy.
Qed.

(** Every item is represented: by a key seen before or by a key
    returned. *)
Lemma unique_from_covers (l seen : list float) (x : float) :
  In x l ->
  existsb (Viz.same_key x) seen = true
  \/ exists u, In u (Viz.unique_from seen l) /\ Viz.same_key x u = true.
Proof.
  revert seen. induction l as [|y l IH]; intros seen Hin; [destruct Hin|].
  simpl. destruct (existsb (Viz.same_key y) seen) eqn:E.
  - destruct Hin as [->|Hin]; [left; exact E|]. apply IH, Hin.
  - destruct Hin as [->|Hin].
    + right. exists x. split; [left; reflexivity|apply same_key_refl].
    + destruct (IH (y :: seen) Hin) as [Hseen|[u [Hu Hxu]]].
      * cbn in Hseen. apply orb_true_iff in Hseen as [Hy|Hseen].
        -- right. exists y. split; [left; reflexivity|exact Hy].
        -- left. exact Hseen.
      * right. exists u. split; [right; exact Hu|exact Hxu].
Qed.

(** The keys returned are items of the list. *)
Lemma unique_from_incl (l seen : list float) (u : float) :
  In u (Viz.unique_from seen l) -> In u l.
Proof.
  revert seen. induction l as [|y l IH]; intros seen Hin; [destruct Hin|].
  simpl in Hin. destruct (existsb (Viz.same_key y) seen).
  - right. eapply IH, Hin.
  - destruct Hin as [->|Hin]; [left; reflexivity|right; eapply IH, Hin].
Qed.

Lemma filter_none {A : Type} (l : list A) : filter (fun _ => false) l = [].
Proof. induction l as [|x l IH]; [reflexivity|exact IH]. Qed.

(** Filtering by the disjunction of two tests that exclude each other
    gives the rows of both filters. *)
Lemma filter_orb_disjoint {A : Type} (f g : A -> bool) (l : list A) :
  (forall x, In x l -> f x = true -> g x = false) ->
  Permutation (filter (fun x => f x || g x) l) (filter f l ++ filter g l).
Proof.
  induction l as [|x l IH]; intros Hdis; [constructor|].
  assert (IH' : Permutation (filter (fun x => f x || g x) l)
                  (filter f l ++ filter g l)).
  { apply IH. intros y Hy. apply Hdis. right. exact Hy. }
  simpl. destruct (f x) eqn:Ef.
  - rewrite (Hdis x (or_introl eq_refl) Ef). cbn. constructor. exact IH'.
  - destruct (g x); cbn.
    + apply Permutation_cons_app. exact IH'.
    + exact IH'.
Qed.

(** Over pairwise different keys, the rows selected key by key are the rows
    selected by some key. *)
Lemma frames_concat (df : list Viz.CsvRow) (keys : list float) :
  ForallOrdPairs (fun a b => Viz.same_key b a = false) keys ->
  Permutation (List.concat (map (Viz.current_data df) keys))
              (filter (Viz.selected_by keys) df).
Proof.
  induction 1 as [|t keys Ht Hpairs IH]; cbn [map List.concat].
  - unfold Viz.selected_by. cbn. rewrite filter_none. constructor.
  - apply Permutation_sym.
    eapply Permutation_trans;
      [|apply Permutation_app_head, Permutation_sym, IH].
    unfold Viz.current_data.
    apply (filter_orb_disjoint (fun r => Viz.row_time r =? t) (Viz.selected_by keys)).
    intros r _ Hrt. unfold Viz.selected_by.
    destruct (existsb (fun t' => Viz.row_time r =? t') keys) eqn:E; [|reflexivity].
    apply existsb_exists in E as [t' [Hin Hrt']].
    pose proof (proj1 (Forall_forall _ _) Ht t' Hin) as Hdiff.
    cbv beta in Hdiff.
    rewrite eqb_sym in Hrt'.
    rewrite (eqb_same_key _ _ (eqb_trans _ _ _ Hrt' Hrt)) in Hdiff.
    discriminate Hdiff.
Qed.

(** A row is selected by one of the distinct timestamps exactly when its
    own timestamp is a number. *)
Lemma selected_iff_number (df : list Viz.CsvRow) (r : Viz.CsvRow) :
  In r df ->
  Viz.selected_by (Viz.unique (map Viz.row_time df)) r
  = (Viz.row_time r =? Viz.row_time r).
Proof.
  intros Hin. unfold Viz.selected_by.
  destruct (Viz.row_time r =? Viz.row_time r) eqn:Hnum.
  - apply existsb_exists.
    destruct (unique_from_covers (map Viz.row_time df) [] (Viz.row_time r)
                (in_map _ _ _ Hin)) as [Hseen|[u [Hu Hru]]];
      [discriminate Hseen|].
    exists u. split; [exact Hu|].
    rewrite (same_key_number _ _ Hnum) in Hru. exact Hru.
  - destruct (existsb _ _) eqn:E; [|reflexivity].
    apply existsb_exists in E as [t [_ Ht]].
    pose proof (eqb_leb _ _ Ht) as [Hle _].
    rewrite (leb_refl_l _ _ Hle) in Hnum. discriminate Hnum.
Qed.

End VizFrames.

(** X12.  Taken over all frames of the animation in order, the rows shown
    are exactly the rows of the file whose timestamp is a number, each of
    them in one frame only; a row whose timestamp is [nan] is shown in no
    frame.  Every frame index below [frames] selects a timestamp. *)
Theorem frames_show_each_row_once (df : list Viz.CsvRow) :
  Permutation
    (List.concat (map (Viz.current_data df) (Viz.unique (map Viz.row_time df))))
    (filter (fun r => Viz.row_time r =? Viz.row_time r) df)
  /\ (forall frame, (frame < Viz.frames df)%nat ->
        exists rows, Viz.frame_rows df frame = Some rows).
Proof.
  split.
  - eapply Permutation_trans.
    + apply frames_concat. apply (unique_from_fresh (map Viz.row_time df) []).
    + rewrite (filter_ext_in _ _ _ (selected_iff_number df)). apply Permutation_refl.
  - intros frame Hlt. unfold Viz.frame_rows, Viz.current_time, Viz.frames in *.
    destruct (nth_error (Viz.unique (map Viz.row_time df)) frame) as [t|] eqn:E.
    + eexists. reflexivity.
    + apply nth_error_None in E. lia.
Qed.

(** X13.  A frame is never empty unless its timestamp is [nan]: the
    timestamp of each frame is the timestamp of some row of the file, all
    rows of the frame compare [==] to it, and the frame has a row whenever
    that timestamp is a number; the frame of a [nan] timestamp has no
    rows. *)
Theorem frame_rows_match_its_time (df : list Viz.CsvRow) (frame : nat) (t : float) :
  Viz.current_time df frame = Some t ->
  (exists r, In r df /\ Viz.row_time r = t)
  /\ Forall (fun r => (Viz.row_time r =? t) = true) (Viz.current_data df t)
  /\ ((t =? t) = true -> Viz.current_data df t <> [])
  /\ ((t =? t) = false -> Viz.current_data df t = []).
Proof.
  intros Ht. unfold Viz.current_time in Ht.
  apply nth_error_In in Ht. apply unique_from_incl in Ht.
  apply in_map_iff in Ht as [r [Hr Hin]].
  split; [exists r; split; assumption|]. split; [|split].
  - apply Forall_forall. intros r' Hr'. apply filter_In in Hr'. apply Hr'.
  - intros Hnum E.
    assert (Hf : In r (Viz.current_data df t)).
    { apply filter_In. split; [exact Hin|]. rewrite Hr. exact Hnum. }
    rewrite E in Hf. exact Hf.
  - intros Hnan. unfold Viz.current_data.
    rewrite (filter_ext _ (fun _ => false)); [apply filter_none|].
    intros r'. destruct (Viz.row_time r' =? t) eqn:E; [|reflexivity].
    pose proof (FloatOrder.eqb_leb _ _ E) as [_ Hle].
    rewrite (FloatOrder.leb_refl_l _ _ Hle) in Hnan. discriminate Hnan.
Qed.

(** The theorem on a file with a [nan] timestamp between two rows at
    1.0: frame 1 is the [nan] frame and is empty, frame 0 shows both rows
    of 1.0. *)
Lemma frame_rows_match_its_time_witness :
  let df := [(tick_at station0 1.0 10.0, 20.0); (tick_at station0 nan 5.0, 20.0);
             (tick_at station0 1.0 30.0, 20.0)] in
  Viz.current_time df 0 = Some 1.0
  /\ List.length (Viz.current_data df 1.0) = 2%nat
  /\ Viz.current_data df 1.0 <> [].
Proof.
  cbv zeta.
  assert (H : Viz.current_time
                [(tick_at station0 1.0 10.0, 20.0); (tick_at station0 nan 5.0, 20.0);
                 (tick_at station0 1.0 30.0, 20.0)] 0 = Some 1.0) by reflexivity.
  split; [exact H|]. split; [reflexivity|].
  exact (proj1 (proj2 (proj2 (frame_rows_match_its_time _ 0%nat 1.0 H))) eq_refl).
Defined.

(** ** One frame per window *)

Section FramesAndWindows.

Import FloatOrder.

Lemma transition_means_cons (all rs : list Cpp2PyStruct) (a b : Cpp2PyStruct) :
  transition_means all (a :: b :: rs)
  = if now_sec b =? now_sec a
    then transition_means all (b :: rs)
    else arithmetic_mean (samples_at (now_sec a) all)
         :: transition_means all (b :: rs).
Proof. reflexivity. Qed.

Lemma length_transition_means (all all' rs : list Cpp2PyStruct) :
  List.length (transition_means all rs) = List.length (transition_means all' rs).
Proof.
  induction rs as [|a rs IH]; [reflexivity|].
  destruct rs as [|b rs]; [reflexivity|].
  rewrite (transition_means_cons all rs a b), (transition_means_cons all' rs a b).
  destruct (now_sec b =? now_sec a); cbn [List.length]; rewrite IH; reflexivity.
Qed.

(** Over non-decreasing timestamps a timestamp is new for [unique] exactly
    when it differs from the one before it. *)
Lemma unique_from_sorted (all rest : list Cpp2PyStruct) (a : Cpp2PyStruct)
      (seen : list float) :
  non_decreasing (map now_sec (a :: rest)) ->
  Forall (fun s => (s <=? now_sec a) = true) seen ->
  existsb (Viz.same_key (now_sec a)) seen = true ->
  List.length (Viz.unique_from seen (map now_sec rest))
  = List.length (transition_means all (a :: rest)).
Proof.
  revert a seen. induction rest as [|b rest IH]; intros a seen Hsorted Hseen Ha;
    [reflexivity|].
  destruct Hsorted as [Hab Hsorted].
  pose proof (leb_refl_l _ _ Hab) as Hnum_a.
  pose proof (leb_refl_r _ _ Hab) as Hnum_b.
  assert (Hseen_b : Forall (fun s => (s <=? now_sec b) = true) seen).
  { apply (Forall_impl _ (P := fun s => (s <=? now_sec a) = true)); [|exact Hseen].
    intros s Hs. eapply leb_trans; eassumption. }
  cbn [map Viz.unique_from]. rewrite transition_means_cons.
  destruct (now_sec b =? now_sec a) eqn:Hba.
  - (* same timestamp: already seen *)
    assert (Hb : existsb (Viz.same_key (now_sec b)) seen = true).
    { apply existsb_exists in Ha as [s [Hin Has]].
      apply existsb_exists. exists s. split; [exact Hin|].
      rewrite (same_key_number _ _ Hnum_a) in Has.
      apply eqb_same_key. eapply eqb_trans; eassumption. }
    rewrite Hb. apply IH; assumption.
  - (* a later timestamp: new *)
    assert (Hb : existsb (Viz.same_key (now_sec b)) seen = false).
    { destruct (existsb (Viz.same_key (now_sec b)) seen) eqn:E; [|reflexivity].
      apply existsb_exists in E as [s [Hin Hbs]].
      rewrite (same_key_number _ _ Hnum_b) in Hbs.
      pose proof (proj1 (Forall_forall _ _) Hseen s Hin) as Hsa.
      rewrite eqb_sym in Hbs.
      pose proof (eqb_squeeze _ _ _ Hsa Hab Hbs) as Hsa_eq.
      rewrite eqb_sym in Hsa_eq.
      rewrite eqb_sym in Hba.
      rewrite (eqb_trans _ _ _ Hsa_eq Hbs) in Hba. discriminate Hba. }
    rewrite Hb. cbn [List.length]. f_equal. apply IH.
    + exact Hsorted.
    + constructor; [apply number_leb_refl, Hnum_b|exact Hseen_b].
    + cbn. rewrite same_key_refl. reflexivity.
Qed.

Lemma length_unique_sorted (ws : list Cpp2PyStruct) :
  non_decreasing (map now_sec ws) ->
  ws <> [] ->
  List.length (Viz.unique (map now_sec ws))
  = S (List.length (transition_means ws ws)).
Proof.
  destruct ws as [|w0 rest]; [congruence|]. intros Hsorted _.
  unfold Viz.unique. cbn [map Viz.unique_from existsb List.length]. f_equal.
  destruct rest as [|b rest]; [reflexivity|].
  apply unique_from_sorted.
  - exact Hsorted.
  - destruct Hsorted as [Hab _].
    constructor; [apply number_leb_refl, (leb_refl_l _ _ Hab)|constructor].
  - cbn. rewrite same_key_refl. reflexivity.
Qed.

End FramesAndWindows.

(** X14.  The animation has one frame per window of the control loop.
    When the timestamps of a run never decrease and the file is read back
    as it was written, the number of frames is the number of windows the
    loop closed plus one, for the window still open at the finish
    signal. *)
Theorem one_frame_per_window (ws : list Cpp2PyStruct) :
  non_decreasing (map now_sec ws) ->
  ws <> [] ->
  let s := {| ticks := ws; ending := Finish |} in
  Viz.frames (collected s)
  = S (List.length (closed_means (log (snd (main s))))).
Proof.
  intros Hsorted Hne. cbv zeta.
  rewrite closed_means_main_finish, (window_means_sorted ws Hsorted).
  unfold Viz.frames.
  assert (Htimes : map Viz.row_time (collected {| ticks := ws; ending := Finish |})
                   = map now_sec ws).
  { transitivity (map now_sec (map fst (collected {| ticks := ws; ending := Finish |}))).
    - rewrite map_map. reflexivity.
    - rewrite map_fst_collected. unfold stored_ticks. cbn [ticks ending].
      rewrite app_nil_r. reflexivity. }
  rewrite Htimes. apply length_unique_sorted; assumption.
Qed.

(** The theorem on scenario B: one closed window, two frames. *)
Lemma one_frame_per_window_witness :
  let ws := ticks (scenario_B station0 station0 station0 station0) in
  non_decreasing (map now_sec ws)
  /\ ws <> []
  /\ Viz.frames (collected {| ticks := ws; ending := Finish |}) = 2%nat.
Proof.
  cbv zeta.
  assert (Hs : non_decreasing
                 (map now_sec (ticks (scenario_B station0 station0 station0 station0))))
    by (simpl; repeat split; reflexivity).
  assert (Hn : ticks (scenario_B station0 station0 station0 station0) <> [])
    by discriminate.
  split; [exact Hs|]. split; [exact Hn|].
  rewrite (one_frame_per_window _ Hs Hn). reflexivity.
Defined.

(** ** The animation: artists never pile up *)

Section AnimFacts.

Import Anim.

Variable sta_label : Viz.CsvRow -> string.
Variable info_text : Viz.CsvRow -> string.
Variable status_text : list Viz.CsvRow -> float -> string.

Lemma NoDup_app_disjoint {A : Type} (l1 l2 : list A) (a : A) :
  NoDup (l1 ++ l2) -> In a l1 -> ~ In a l2.
Proof.
  induction l1 as [|x l1 IH]; intros Hnd Hin; [destruct Hin|].
  cbn in Hnd. apply NoDup_cons_iff in Hnd as [Hx Hnd].
  destruct Hin as [->|Hin].
  - intros H2. apply Hx. apply in_or_app. right. exact H2.
  - apply IH; assumption.
Qed.

Lemma filter_twice {A : Type} (f g : A -> bool) (l : list A) :
  filter f (filter g l) = filter (fun x => g x && f x) l.
Proof.
  induction l as [|x l IH]; [reflexivity|].
  simpl. destruct (g x); simpl; [destruct (f x)|]; rewrite ?IH; reflexivity.
Qed.

Lemma attached_iff (t : Text) (l : list Text) :
  existsb (same_artist t) l = true <-> In (text_id t) (map text_id l).
Proof.
  rewrite existsb_exists, in_map_iff. unfold same_artist.
  split; intros [u [A B]]; exists u.
  - apply Nat.eqb_eq in B. split; assumption.
  - split; [exact B|]. apply Nat.eqb_eq. exact A.
Qed.

(** Removing artists that are attached, each once, succeeds and detaches
    exactly them. *)
Lemma remove_each_attached (ts : list Text) (p : Plot) :
  NoDup (map text_id ts) ->
  incl (map text_id ts) (map text_id (on_axes p)) ->
  remove_each ts p = inr (set_on_axes (without ts (on_axes p)) p).
Proof.
  revert p. induction ts as [|t ts IH]; intros p Hnd Hin.
  - unfold without. cbn. rewrite filter_true. destruct p; reflexivity.
  - cbn [map] in Hnd. apply NoDup_cons_iff in Hnd as [Ht Hnd].
    cbn [remove_each]. unfold remove.
    assert (Hatt : existsb (same_artist t) (on_axes p) = true).
    { apply attached_iff. apply Hin. left. reflexivity. }
    rewrite Hatt. rewrite IH.
    + cbn [on_axes set_on_axes]. unfold without. rewrite filter_twice.
      f_equal. unfold set_on_axes. cbn. f_equal.
      apply filter_ext. intros u. cbn [existsb]. rewrite negb_orb. reflexivity.
    + exact Hnd.
    + intros x Hx. cbn [on_axes set_on_axes].
      assert (Hxp : In x (map text_id (on_axes p))) by (apply Hin; right; exact Hx).
      apply in_map_iff in Hxp as [u [Hu Hup]].
      apply in_map_iff. exists u. split; [exact Hu|].
      apply filter_In. split; [exact Hup|].
      unfold same_artist. apply negb_true_iff, Nat.eqb_neq.
      intros E. apply Ht. rewrite <- E, Hu. exact Hx.
Qed.

Lemma without_all (ts l : list Text) :
  incl (map text_id l) (map text_id ts) -> without ts l = [].
Proof.
  intros Hin. unfold without.
  rewrite (filter_ext_in _ (fun _ => false)); [apply filter_none|].
  intros u Hu. apply negb_false_iff.
  assert (Hid : In (text_id u) (map text_id ts)) by (apply Hin, in_map, Hu).
  apply in_map_iff in Hid as [t [Ht Htin]].
  apply existsb_exists. exists t. split; [exact Htin|].
  unfold same_artist. apply Nat.eqb_eq. symmetry. exact Ht.
Qed.

Lemma without_none (ts l : list Text) :
  (forall x, In x (map text_id l) -> ~ In x (map text_id ts)) -> without ts l = l.
Proof.
  intros Hdis. unfold without.
  rewrite (filter_ext_in _ (fun _ => true)); [apply filter_true|].
  intros u Hu. apply negb_true_iff.
  destruct (existsb (fun t => same_artist t u) ts) eqn:E; [|reflexivity].
  exfalso. apply existsb_exists in E as [t [Htin Ht]].
  apply (Hdis (text_id u)); [apply in_map, Hu|].
  unfold same_artist in Ht. apply Nat.eqb_eq in Ht. rewrite Ht.
  apply in_map, Htin.
Qed.

Lemma without_right (a b : list Text) :
  NoDup (map text_id (a ++ b)) -> without b (a ++ b) = a.
Proof.
  intros Hnd. unfold without. rewrite filter_app.
  fold (without b a). fold (without b b).
  rewrite (without_all b b), app_nil_r by apply incl_refl.
  apply without_none. intros x Hx. rewrite map_app in Hnd.
  exact (NoDup_app_disjoint _ _ x Hnd Hx).
Qed.

Lemma without_left (a b : list Text) :
  NoDup (map text_id (a ++ b)) -> without a (a ++ b) = b.
Proof.
  intros Hnd. unfold without. rewrite filter_app.
  fold (without a a). fold (without a b).
  rewrite (without_all a a) by apply incl_refl. cbn [app].
  apply without_none. intros x Hx Hxa. rewrite map_app in Hnd.
  exact (NoDup_app_disjoint _ _ x Hnd Hxa Hx).
Qed.

(** The first loop of [update]: one new label per row, in order, at the
    station's position. *)
Lemma add_sta_texts_spec (rows : list Viz.CsvRow) (p : Plot) :
  exists new,
    map text_id new = seq (created p) (List.length rows)
    /\ map shown new
       = map (fun r => (pos_x (fst r), pos_y (fst r), sta_label r)) rows
    /\ add_sta_texts sta_label rows p
       = {| scat_offsets := scat_offsets p; time_text := time_text p;
            annotations := annotations p; sta_texts := sta_texts p ++ new;
            on_axes := on_axes p ++ new;
            created := created p + List.length rows |}.
Proof.
  revert p. induction rows as [|r rows IH]; intros p.
  - exists []. cbn. rewrite !app_nil_r, Nat.add_0_r. destruct p. repeat split.
  - cbn [add_sta_texts ax_text].
    destruct (IH (set_sta_texts
                    (sta_texts p ++ [{| text_id := created p;
                                        text_x := pos_x (fst r);
                                        text_y := pos_y (fst r);
                                        text_str := sta_label r |}])
                    {| scat_offsets := scat_offsets p; time_text := time_text p;
                       annotations := annotations p; sta_texts := sta_texts p;
                       on_axes := on_axes p
                                  ++ [{| text_id := created p;
                                         text_x := pos_x (fst r);
                                         text_y := pos_y (fst r);
                                         text_str := sta_label r |}];
                       created := S (created p) |}))
      as [new [Hids [Hshown Heq]]].
    cbn [set_sta_texts sta_texts on_axes created scat_offsets time_text annotations]
      in Hids, Heq.
    exists ({| text_id := created p; text_x := pos_x (fst r);
               text_y := pos_y (fst r); text_str := sta_label r |} :: new).
    split; [|split].
    + cbn [map text_id List.length seq]. rewrite Hids. reflexivity.
    + cbn [map shown text_x text_y text_str]. rewrite Hshown. reflexivity.
    + cbn [set_sta_texts sta_texts on_axes created scat_offsets time_text annotations].
      rewrite Heq. cbn [List.length]. rewrite <- !app_assoc, Nat.add_succ_r.
      reflexivity.
Qed.

(** The second loop: one new box per row, 0.01 up and to the right. *)
Lemma add_annotations_spec (rows : list Viz.CsvRow) (p : Plot) :
  exists new,
    map text_id new = seq (created p) (List.length rows)
    /\ map shown new
       = map (fun r => (pos_x (fst r) + 0.01, pos_y (fst r) + 0.01, info_text r)) rows
    /\ add_annotations info_text rows p
       = {| scat_offsets := scat_offsets p; time_text := time_text p;
            annotations := annotations p ++ new; sta_texts := sta_texts p;
            on_axes := on_axes p ++ new;
            created := created p + List.length rows |}.
Proof.
  revert p. induction rows as [|r rows IH]; intros p.
  - exists []. cbn. rewrite !app_nil_r, Nat.add_0_r. destruct p. repeat split.
  - cbn [add_annotations ax_text].
    destruct (IH (set_annotations
                    (annotations p ++ [{| text_id := created p;
                                          text_x := pos_x (fst r) + 0.01;
                                          text_y := pos_y (fst r) + 0.01;
                                          text_str := info_text r |}])
                    {| scat_offsets := scat_offsets p; time_text := time_text p;
                       annotations := annotations p; sta_texts := sta_texts p;
                       on_axes := on_axes p
                                  ++ [{| text_id := created p;
                                         text_x := pos_x (fst r) + 0.01;
                                         text_y := pos_y (fst r) + 0.01;
                                         text_str := info_text r |}];
                       created := S (created p) |}))
      as [new [Hids [Hshown Heq]]].
    cbn [set_annotations sta_texts on_axes created scat_offsets time_text annotations]
      in Hids, Heq.
    exists ({| text_id := created p; text_x := pos_x (fst r) + 0.01;
               text_y := pos_y (fst r) + 0.01; text_str := info_text r |} :: new).
    split; [|split].
    + cbn [map text_id List.length seq]. rewrite Hids. reflexivity.
    + cbn [map shown text_x text_y text_str]. rewrite Hshown. reflexivity.
    + cbn [set_annotations sta_texts on_axes created scat_offsets time_text annotations].
      rewrite Heq. cbn [List.length]. rewrite <- !app_assoc, Nat.add_succ_r.
      reflexivity.
Qed.

(** [update] on a tidy plot. *)
Lemma update_tidy (df : list Viz.CsvRow) (frame : nat) (t : float) (p : Plot) :
  Viz.current_time df frame = Some t ->
  tidy p ->
  exists p',
    update sta_label info_text status_text df frame p = inr p'
    /\ tidy p'
    /\ map shown (sta_texts p')
       = map (fun r => (pos_x (fst r), pos_y (fst r), sta_label r))
           (Viz.current_data df t)
    /\ map shown (annotations p')
       = map (fun r => (pos_x (fst r) + 0.01, pos_y (fst r) + 0.01, info_text r))
           (Viz.current_data df t)
    /\ scat_offsets p'
       = map (fun r => (pos_x (fst r), pos_y (fst r))) (Viz.current_data df t)
    /\ time_text p' = status_text (Viz.current_data df t) t.
Proof.
  intros Ht [Hax Hnd]. unfold update. rewrite Ht.
  set (rows := Viz.current_data df t).
  cbn [annotations set_scat_offsets].
  (* the old boxes go *)
  rewrite remove_each_attached; cbn [on_axes set_scat_offsets];
    [| rewrite Hax, map_app in Hnd; exact (NoDup_app_remove_l _ _ Hnd)
     | rewrite Hax, map_app; apply incl_appr, incl_refl ].
  cbn [sta_texts set_annotations set_on_axes set_scat_offsets].
  (* the old labels go *)
  assert (Hrest : without (annotations p) (on_axes p) = sta_texts p).
  { rewrite Hax. apply without_right. rewrite <- Hax. exact Hnd. }
  rewrite remove_each_attached; cbn [on_axes set_annotations set_on_axes set_scat_offsets];
    [| rewrite Hax, map_app in Hnd; exact (NoDup_app_remove_r _ _ Hnd)
     | rewrite Hrest; apply incl_refl ].
  rewrite Hrest, (without_all (sta_texts p) (sta_texts p)) by apply incl_refl.
  (* the new ones come *)
  match goal with
  | |- context [add_sta_texts sta_label rows ?q] =>
      destruct (add_sta_texts_spec rows q) as [labels [Hlid [Hlshown Hlabels]]];
      rewrite Hlabels
  end.
  match goal with
  | |- context [add_annotations info_text rows ?q] =>
      destruct (add_annotations_spec rows q) as [boxes [Hbid [Hbshown Hboxes]]];
      rewrite Hboxes
  end.
  cbn [created set_sta_texts set_annotations set_on_axes set_scat_offsets
       scat_offsets time_text annotations sta_texts on_axes] in *.
  eexists. split; [reflexivity|]. unfold tidy.
  cbn [set_time_text scat_offsets time_text annotations sta_texts on_axes created app].
  repeat split; try assumption.
  rewrite map_app, Hlid, Hbid, <- seq_app. apply seq_NoDup.
Qed.

(** [init] on a tidy plot. *)
Lemma init_tidy (p : Plot) :
  tidy p ->
  exists p',
    init p = inr p'
    /\ tidy p'
    /\ sta_texts p' = []
    /\ annotations p' = annotations p
    /\ on_axes p' = annotations p
    /\ scat_offsets p' = []
    /\ time_text p' = ""%string.
Proof.
  intros [Hax Hnd]. unfold init.
  cbn [sta_texts set_time_text set_scat_offsets].
  rewrite remove_each_attached;
    cbn [on_axes set_time_text set_scat_offsets];
    [| rewrite Hax, map_app in Hnd; exact (NoDup_app_remove_r _ _ Hnd)
     | rewrite Hax, map_app; apply incl_appl, incl_refl ].
  assert (Hrest : without (sta_texts p) (on_axes p) = annotations p).
  { rewrite Hax. apply without_left. rewrite <- Hax. exact Hnd. }
  rewrite Hrest. eexists. split; [reflexivity|]. unfold tidy.
  cbn. repeat split.
  rewrite Hax, map_app in Hnd. exact (NoDup_app_remove_l _ _ Hnd).
Qed.


End AnimFacts.

Lemma initial_plot_tidy : Anim.tidy Anim.initial_plot.
Proof. split; [reflexivity|constructor]. Qed.





(** X17.  [init] is not the inverse of [update]: on tidy axes it empties
    the scatter plot and the status line and removes the station labels,
    but it leaves the information boxes of the last frame attached and in
    [annotations], where the next [update] removes them. *)
Theorem init_keeps_the_annotation_boxes
        (sta_label info_text : Viz.CsvRow -> string)
        (status_text : list Viz.CsvRow -> float -> string)
        (df : list Viz.CsvRow) (frame : nat) (t : float) (p : Anim.Plot) :
  Viz.current_time df frame = Some t ->
  Anim.tidy p ->
  exists p1 p2,
    Anim.update sta_label info_text status_text df frame p = inr p1
    /\ Anim.init p1 = inr p2
    /\ Anim.scat_offsets p2 = []
    /\ Anim.time_text p2 = ""%string
    /\ Anim.sta_texts p2 = []
    /\ Anim.annotations p2 = Anim.annotations p1
    /\ Anim.on_axes p2 = Anim.annotations p1
    /\ List.length (Anim.on_axes p2) = List.length (Viz.current_data df t).
Proof.
  intros Ht Hp.
  destruct (update_tidy sta_label info_text status_text df frame t p Ht Hp)
    as [p1 [Hrun [Hp1 [_ [Hann _]]]]].
  destruct (init_tidy p1 Hp1) as [p2 [Hinit [_ [Hsta [Hkeep [Hax [Hoff Htxt]]]]]]].
  exists p1, p2. repeat split; try assumption.
  rewrite Hax, <- (length_map Anim.shown), Hann. apply length_map.
Qed.

(** The theorem after the second frame of a file of three rows: the two
    boxes of that frame survive [init]. *)
Lemma init_keeps_the_annotation_boxes_witness :
  let df := [(tick_at station0 1.0 10.0, 20.0); (tick_at station0 2.0 20.0, 27.0);
             (tick_at station0 2.0 30.0, 27.0)] in
  Viz.current_time df 1 = Some 2.0
  /\ exists p1 p2,
       Anim.update (fun _ => ""%string) (fun _ => ""%string) (fun _ _ => ""%string)
         df 1 Anim.initial_plot = inr p1
       /\ Anim.init p1 = inr p2
       /\ List.length (Anim.on_axes p2) = 2%nat.
Proof.
  cbv zeta. split; [reflexivity|].
  destruct (init_keeps_the_annotation_boxes
              (fun _ => ""%string) (fun _ => ""%string) (fun _ _ => ""%string)
              [(tick_at station0 1.0 10.0, 20.0); (tick_at station0 2.0 20.0, 27.0);
               (tick_at station0 2.0 30.0, 27.0)] 1 2.0 Anim.initial_plot
              eq_refl initial_plot_tidy)
    as [p1 [p2 [H1 [H2 [_ [_ [_ [_ [_ Hlen]]]]]]]]].
  exists p1, p2. repeat split; assumption.
Defined.
